(** * AniXLinks: the playlist collector of [AniXLinks.py], embedded in Rocq

    The collector fetches playlist sources, parses them into channel records,
    drops duplicate stream URLs, probes every stream for liveness and exports
    what is left.  This file embeds [AniXLinksCollector] from ingestion to the
    exit status of [main] and proves what its specification says about it.

    Conventions of the embedding.
    - A Python [str] is a [string]; a character is a code point below 256
      (Latin-1), so [str.isspace], [str.lower] and the UTF-8 encoding are the
      restrictions of Python's to that range.
    - The network, the clock, [json.loads] and the HTML scraper (BeautifulSoup)
      are parameters of a [Section]; [hashlib.md5] is implemented.
    - The collector object is a record threaded through every method. *)

From Stdlib Require Import ZArith Ascii String List Bool Lia Permutation.
From stdpp Require Import base gmap strings list.

Import ListNotations.

(** ** Python strings *)

Module PyStr.

Definition ord (c : ascii) : nat := nat_of_ascii c.

(** [str.isspace] on one character: Python's whitespace below 256 is
    U+0009..U+000D, U+001C..U+0020, U+0085 and U+00A0.  The regular
    expression class [\s] on [str] patterns is the same set. *)
Definition isspace (c : ascii) : bool :=
  let n := ord c in
  ((9 <=? n) && (n <=? 13)) || ((28 <=? n) && (n <=? 32))
  || (n =? 133) || (n =? 160).

Definition is_empty (s : string) : bool :=
  match s with EmptyString => true | String _ _ => false end.

Fixpoint lstrip (s : string) : string :=
  match s with
  | EmptyString => EmptyString
  | String c s' => if isspace c then lstrip s' else s
  end.

Fixpoint rstrip (s : string) : string :=
  match s with
  | EmptyString => EmptyString
  | String c s' =>
      let r := rstrip s' in
      if isspace c && is_empty r then EmptyString else String c r
  end.

(** [s.strip()] *)
Definition strip (s : string) : string := rstrip (lstrip s).

(** [s.startswith(p)] *)
Definition startswith (s p : string) : bool := String.prefix p s.

(** [s.startswith((p1, p2, ...))] *)
Definition startswith_any (s : string) (ps : list string) : bool :=
  existsb (startswith s) ps.

(** [p in s] *)
Fixpoint contains (p s : string) : bool :=
  String.prefix p s ||
  match s with
  | EmptyString => false
  | String _ s' => contains p s'
  end.

Fixpoint endswith_from (s p : string) : bool :=
  String.eqb s p ||
  match s with
  | EmptyString => false
  | String _ s' => endswith_from s' p
  end.

(** [s.endswith(p)] *)
Definition endswith (s p : string) : bool := endswith_from s p.

(** [s.replace(old, new)] for a non-empty [old]: occurrences are replaced
    from the left and do not overlap.  [skip] counts the characters of a
    matched occurrence that are still to be dropped. *)
Fixpoint replace_from (old new s : string) (skip : nat) : string :=
  match s with
  | EmptyString => EmptyString
  | String c s' =>
      match skip with
      | S k => replace_from old new s' k
      | O =>
          if String.prefix old s
          then new +:+ replace_from old new s' (String.length old - 1)
          else String c (replace_from old new s' 0)
      end
  end.

Definition replace (s old new : string) : string := replace_from old new s 0.

(** [str.lower] on one character below 256. *)
Definition lower_char (c : ascii) : ascii :=
  let n := ord c in
  if ((65 <=? n) && (n <=? 90)) || ((192 <=? n) && (n <=? 214))
     || ((216 <=? n) && (n <=? 222))
  then ascii_of_nat (n + 32) else c.

Fixpoint lower (s : string) : string :=
  match s with
  | EmptyString => EmptyString
  | String c s' => String (lower_char c) (lower s')
  end.

(** [s[:n]] *)
Fixpoint take (n : nat) (s : string) : string :=
  match n, s with
  | S k, String c s' => String c (take k s')
  | _, _ => EmptyString
  end.

(** [s[n:]] *)
Fixpoint drop (n : nat) (s : string) : string :=
  match n, s with
  | S k, String _ s' => drop k s'
  | _, _ => s
  end.

(** [sep.join(l)] *)
Fixpoint join (sep : string) (l : list string) : string :=
  match l with
  | [] => EmptyString
  | [x] => x
  | x :: l' => x +:+ sep +:+ join sep l'
  end.

(** [s.split()]: the maximal runs of non-whitespace characters.  [w] is the
    word being read. *)
Fixpoint split_from (w : option string) (s : string) : list string :=
  match s with
  | EmptyString => match w with Some x => [x] | None => [] end
  | String c s' =>
      if isspace c
      then match w with
           | Some x => x :: split_from None s'
           | None => split_from None s'
           end
      else split_from (Some (match w with
                             | Some x => x +:+ String c EmptyString
                             | None => String c EmptyString
                             end)) s'
  end.

Definition split (s : string) : list string := split_from None s.

End PyStr.

(** ** The regular expressions of the playlist parser *)

Module Re.

Definition newline : ascii := ascii_of_nat 10.
Definition quote : ascii := ascii_of_nat 34.
Definition comma : ascii := ascii_of_nat 44.

(** [re.sub(r'\s+', ' ', s)]: every maximal run of whitespace becomes one
    space.  [in_run] tells that the previous character was whitespace. *)
Fixpoint sub_ws_from (in_run : bool) (s : string) : string :=
  match s with
  | EmptyString => EmptyString
  | String c s' =>
      if PyStr.isspace c
      then if in_run then sub_ws_from true s'
           else String " " (sub_ws_from true s')
      else String c (sub_ws_from false s')
  end.

Definition sub_ws (s : string) : string := sub_ws_from false s.

(** The longest prefix of characters that [.] matches (anything but a
    newline), and what follows it. *)
Fixpoint span_dot (s : string) : string * string :=
  match s with
  | EmptyString => (EmptyString, EmptyString)
  | String c s' =>
      if Ascii.eqb c newline then (EmptyString, s)
      else let '(p, r) := span_dot s' in (String c p, r)
  end.

(** [(.+)$] tried at the start of [s].  The group is greedy; [$] holds at
    the end of the string or before a newline that ends it.  A shorter
    group would be followed by a character that is not a newline, where [$]
    fails, so the longest group decides. *)
Definition match_dot_plus_eol (s : string) : option string :=
  let '(p, r) := span_dot s in
  if PyStr.is_empty p then None
  else if PyStr.is_empty r || String.eqb r (String newline EmptyString)
       then Some p else None.

(** [re.search(r',(.+)$', s)]: group 1 of the leftmost match. *)
Fixpoint search_name (s : string) : option string :=
  match s with
  | EmptyString => None
  | String c s' =>
      if Ascii.eqb c comma
      then match match_dot_plus_eol s' with
           | Some g => Some g
           | None => search_name s'
           end
      else search_name s'
  end.

(** The tail of the attribute patterns, a group of characters other than
    the double quote followed by a double quote, tried at the start of
    [s]: the text before the first double quote, when there is one. *)
Fixpoint match_quoted (s : string) : option string :=
  match s with
  | EmptyString => None
  | String c s' =>
      if Ascii.eqb c quote then Some EmptyString
      else match match_quoted s' with
           | Some g => Some (String c g)
           | None => None
           end
  end.

(** [re.search] for the attribute patterns: [key], an equals sign and a
    double-quoted value without double quotes in it, which is group 1.
    The leftmost match is returned. *)
Fixpoint search_attr (key s : string) : option string :=
  let opening := key +:+ "=" +:+ String quote EmptyString in
  let here :=
    if String.prefix opening s
    then match_quoted (PyStr.drop (String.length opening) s)
    else None in
  match here with
  | Some g => Some g
  | None =>
      match s with
      | EmptyString => None
      | String _ s' => search_attr key s'
      end
  end.

End Re.

(** ** [hashlib.md5]

  MD5 as in RFC 1321, on a message of bytes; 32-bit words are integers with
  the wrap-around written out. *)

Module MD5.
Local Open Scope Z_scope.

Definition add32 (x y : Z) : Z := (x + y) mod 2 ^ 32.
Definition not32 (x : Z) : Z := Z.lxor x 0xffffffff.
Definition rotl32 (x n : Z) : Z :=
  Z.lor (Z.shiftl x n mod 2 ^ 32) (Z.shiftr x (32 - n)).

(** [K i] is the integer part of [2^32 * abs (sin (i + 1))]. *)
Definition K : list Z :=
  [ 0xd76aa478; 0xe8c7b756; 0x242070db; 0xc1bdceee;
    0xf57c0faf; 0x4787c62a; 0xa8304613; 0xfd469501;
    0x698098d8; 0x8b44f7af; 0xffff5bb1; 0x895cd7be;
    0x6b901122; 0xfd987193; 0xa679438e; 0x49b40821;
    0xf61e2562; 0xc040b340; 0x265e5a51; 0xe9b6c7aa;
    0xd62f105d; 0x02441453; 0xd8a1e681; 0xe7d3fbc8;
    0x21e1cde6; 0xc33707d6; 0xf4d50d87; 0x455a14ed;
    0xa9e3e905; 0xfcefa3f8; 0x676f02d9; 0x8d2a4c8a;
    0xfffa3942; 0x8771f681; 0x6d9d6122; 0xfde5380c;
    0xa4beea44; 0x4bdecfa9; 0xf6bb4b60; 0xbebfbc70;
    0x289b7ec6; 0xeaa127fa; 0xd4ef3085; 0x04881d05;
    0xd9d4d039; 0xe6db99e5; 0x1fa27cf8; 0xc4ac5665;
    0xf4292244; 0x432aff97; 0xab9423a7; 0xfc93a039;
    0x655b59c3; 0x8f0ccc92; 0xffeff47d; 0x85845dd1;
    0x6fa87e4f; 0xfe2ce6e0; 0xa3014314; 0x4e0811a1;
    0xf7537e82; 0xbd3af235; 0x2ad7d2bb; 0xeb86d391 ].

(** The per-round shift amounts. *)
Definition shifts : list Z :=
  [ 7; 12; 17; 22; 7; 12; 17; 22; 7; 12; 17; 22; 7; 12; 17; 22;
    5; 9; 14; 20; 5; 9; 14; 20; 5; 9; 14; 20; 5; 9; 14; 20;
    4; 11; 16; 23; 4; 11; 16; 23; 4; 11; 16; 23; 4; 11; 16; 23;
    6; 10; 15; 21; 6; 10; 15; 21; 6; 10; 15; 21; 6; 10; 15; 21 ].

(** [n] as [k] little-endian bytes. *)
Fixpoint le_bytes (k : nat) (n : Z) : list Z :=
  match k with
  | O => []
  | S k' => n mod 256 :: le_bytes k' (n / 256)
  end.

Fixpoint le_word (bs : list Z) : Z :=
  match bs with
  | [] => 0
  | b :: bs' => b + 256 * le_word bs'
  end.

(** The message followed by the byte 0x80, zero bytes up to 56 modulo 64,
    and the length of the message in bits as 8 little-endian bytes. *)
Definition pad (msg : list Z) : list Z :=
  let len := Z.of_nat (List.length msg) in
  msg ++ [0x80] ++ List.repeat 0 (Z.to_nat ((55 - len) mod 64))
      ++ le_bytes 8 ((8 * len) mod 2 ^ 64).

(** The sixteen little-endian words of the [i]-th 64-byte block. *)
Definition block (padded : list Z) (i : nat) : list Z :=
  let bytes := firstn 64 (skipn (64 * i) padded) in
  List.map (fun j => le_word (firstn 4 (skipn (4 * j) bytes))) (seq 0 16).

Definition state : Type := Z * Z * Z * Z.

Definition step (M : list Z) (st : state) (i : nat) : state :=
  let '(A, B, C, D) := st in
  let iz := Z.of_nat i in
  let '(F, g) :=
    if iz <? 16 then (Z.lor (Z.land B C) (Z.land (not32 B) D), iz)
    else if iz <? 32
    then (Z.lor (Z.land D B) (Z.land (not32 D) C), (5 * iz + 1) mod 16)
    else if iz <? 48 then (Z.lxor (Z.lxor B C) D, (3 * iz + 5) mod 16)
    else (Z.lxor C (Z.lor B (not32 D)), (7 * iz) mod 16) in
  let F' := add32 (add32 (add32 F A) (nth i K 0)) (nth (Z.to_nat g) M 0) in
  (D, add32 B (rotl32 F' (nth i shifts 0)), B, C).

Definition compress (padded : list Z) (st : state) (i : nat) : state :=
  let '(a0, b0, c0, d0) := st in
  let '(A, B, C, D) := fold_left (step (block padded i)) (seq 0 64) st in
  (add32 a0 A, add32 b0 B, add32 c0 C, add32 d0 D).

Definition init : state := (0x67452301, 0xefcdab89, 0x98badcfe, 0x10325476).

(** [hashlib.md5(msg).digest()] *)
Definition digest (msg : list Z) : list Z :=
  let padded := pad msg in
  let '(a, b, c, d) :=
    fold_left (compress padded) (seq 0 (List.length padded / 64)) init in
  le_bytes 4 a ++ le_bytes 4 b ++ le_bytes 4 c ++ le_bytes 4 d.

Definition hex_digit (n : Z) : ascii :=
  if n <? 10 then ascii_of_nat (Z.to_nat (48 + n))
  else ascii_of_nat (Z.to_nat (87 + n)).

Fixpoint hex (bs : list Z) : string :=
  match bs with
  | [] => EmptyString
  | b :: bs' => String (hex_digit (b / 16)) (String (hex_digit (b mod 16)) (hex bs'))
  end.

(** [hashlib.md5(msg).hexdigest()] *)
Definition hexdigest (msg : list Z) : string := hex (digest msg).

(** [s.encode('utf-8')] for code points below 256: one byte below 128, two
    bytes from there on. *)
Fixpoint encode_utf8 (s : string) : list Z :=
  match s with
  | EmptyString => []
  | String c s' =>
      let n := Z.of_nat (nat_of_ascii c) in
      if n <? 128 then n :: encode_utf8 s'
      else (0xC0 + n / 64) :: (0x80 + n mod 64) :: encode_utf8 s'
  end.

End MD5.

(** ** Data model *)

(** The dict that an [#EXTINF] line builds in [current_channel]: a channel
    record whose [url] key is still to be set. *)
Record Extinf := mkExtinf {
  e_id : string;
  e_name : string;
  e_logo : string;
  e_group : string;
  e_tvg_id : string;
  e_source : string;
  e_added_date : string }.

(** A channel record of the store.  [c_status] is the optional [status] key,
    which only the validation stage sets. *)
Record Channel := mkChannel {
  c_id : string;
  c_name : string;
  c_logo : string;
  c_group : string;
  c_tvg_id : string;
  c_source : string;
  c_added_date : string;
  c_url : string;
  c_status : option string }.

(** [current_channel['url'] = line] *)
Definition with_url (e : Extinf) (line : string) : Channel :=
  mkChannel (e_id e) (e_name e) (e_logo e) (e_group e) (e_tvg_id e)
            (e_source e) (e_added_date e) line None.

(** [channel['url'] = updated_url; channel['status'] = 'active'] *)
Definition mark_active (ch : Channel) (updated_url : string) : Channel :=
  mkChannel (c_id ch) (c_name ch) (c_logo ch) (c_group ch) (c_tvg_id ch)
            (c_source ch) (c_added_date ch) updated_url (Some "active").

(** [self.channels], a [defaultdict(list)]: the groups in the order of their
    first insertion, each with its channels in insertion order. *)
Definition Store : Type := list (string * list Channel).

(** [store[g].append(ch)] *)
Fixpoint append_to (g : string) (ch : Channel) (store : Store) : Store :=
  match store with
  | [] => [(g, [ch])]
  | (k, chans) :: rest =>
      if String.eqb k g then (k, chans ++ [ch]) :: rest
      else (k, chans) :: append_to g ch rest
  end.

(** [[(group, ch) for group, chans in store.items() for ch in chans]] *)
Definition all_channels (store : Store) : list (string * Channel) :=
  flat_map (fun kv => List.map (pair (fst kv)) (snd kv)) store.

(** [sum(len(ch) for ch in store.values())] *)
Definition total_channels (store : Store) : nat :=
  list_sum (List.map (fun kv => List.length (snd kv)) store).

(** The URLs of the records of the store. *)
Definition store_urls (store : Store) : list string :=
  List.map (fun gc => c_url (snd gc)) (all_channels store).

(** The state of an [AniXLinksCollector].  [clock] counts the readings of
    [datetime.now] so far. *)
Record Collector := mkCollector {
  channels : Store;
  seen_urls : gset string;
  url_status_cache : gmap string (bool * string);
  check_links : bool;
  clock : nat }.

Definition default_logo : string :=
  "https://via.placeholder.com/100x100.png?text=AniXLinks".

(** [AniXLinksCollector.__init__] *)
Definition new_collector (check : bool) : Collector :=
  mkCollector [] ∅ ∅ check 0.

(** [generate_channel_id]: the first eight hexadecimal digits of the MD5 of
    [name], an underscore and [url], encoded as UTF-8. *)
Definition generate_channel_id (name url : string) : string :=
  PyStr.take 8 (MD5.hexdigest (MD5.encode_utf8 (name +:+ "_" +:+ url))).

(** What [json.loads] returns, as far as [parse_json_content] looks at it:
    a list or something else; an item that is a dict or something else.  A
    dict is the list of its items, each key once.  The values are strings, as
    the annotations of the source have them ([seen_urls: Set[str]],
    [generate_channel_id(name: str, url: str)]). *)
Inductive JsonItem :=
  | JDict (fields : list (string * string))
  | JNotDict.

Inductive JsonData :=
  | JList (items : list JsonItem)
  | JNotList.

(** [item.get(key)] *)
Fixpoint dict_get (key : string) (fields : list (string * string)) : option string :=
  match fields with
  | [] => None
  | (k, v) :: rest => if String.eqb k key then Some v else dict_get key rest
  end.

(** What a request of the session answers: a response with its status code,
    a [requests.RequestException], or another exception. *)
Inductive Response :=
  | Status (code : Z)
  | RequestException
  | OtherException.

Inductive Probe :=
  | Head (url : string)
  | Get (url : string).

(** What [check_link_active] answers: its pair, or an exception. *)
Inductive Outcome :=
  | Returned (is_active : bool) (updated_url : string)
  | Raised.

(** Where [process_sources] sends the content of a source. *)
Inductive Parser := HtmlScraper | JsonParser | PlaylistParser.

(** The state of the loop of [parse_m3u_content]. *)
Record M3uLoop := mkM3uLoop {
  current_channel : option Extinf;
  channel_count : nat;
  self : Collector }.

Definition url_schemes : list string :=
  ["http://"; "https://"; "rtmp://"; "rtsp://"].

Section Collector.

(** [datetime.now(...).isoformat()] at its [n]-th reading. *)
Variable now : nat -> string.

(** [session.head(url, ...)] and [session.get(url, stream=True, ...)]
    during the validation stage. *)
Variable session_head : string -> Response.
Variable session_get : string -> Response.

(** [concurrent.futures.as_completed]: the submitted probes in the order
    in which they complete. *)
Variable as_completed : list (string * Channel) -> list (string * Channel).

(** [fetch_content], [json.loads] (nothing on a [JSONDecodeError]) and
    [extract_stream_urls_from_html]. *)
Variable fetch_content : string -> option string * list string.
Variable json_loads : string -> option JsonData.
Variable extract_stream_urls_from_html : string -> string -> list string.

(** *** [check_link_active] *)

Definition below_400 (r : Response) : bool :=
  match r with
  | Status code => (code <? 400)%Z
  | _ => false
  end.

(** [alt_url]: every [https://] replaced by [http://] when the URL starts
    with [https://], every [http://] replaced by [https://] otherwise. *)
Definition alt_url (url : string) : string :=
  if PyStr.startswith url "https://"
  then PyStr.replace url "https://" "http://"
  else PyStr.replace url "http://" "https://".

(** From [alt_url = ...] to the end of [check_link_active]: the probes
    made and the answer. *)
Definition probe_alt (url : string) : list Probe * Outcome :=
  let alt := alt_url url in
  if negb (String.eqb alt url)
  then match session_head alt with
       | Status code =>
           if (code <? 400)%Z then ([Head alt], Returned true alt)
           else ([Head alt], Returned false url)
       | RequestException => ([Head alt], Returned false url)
       | OtherException => ([Head alt], Raised)
       end
  else ([], Returned false url).

Definition after (p : Probe) (r : list Probe * Outcome) : list Probe * Outcome :=
  (p :: fst r, snd r).

(** [check_link_active] past the cache: the probes made, in order, and the
    answer. *)
Definition probe (url : string) : list Probe * Outcome :=
  match session_head url with
  | Status code =>
      if (code <? 400)%Z then ([Head url], Returned true url)
      else after (Head url) (probe_alt url)
  | RequestException =>
      match session_get url with
      | Status code =>
          if (code <? 400)%Z then ([Head url; Get url], Returned true url)
          else after (Head url) (after (Get url) (probe_alt url))
      | RequestException => after (Head url) (after (Get url) (probe_alt url))
      | OtherException => ([Head url; Get url], Raised)
      end
  | OtherException => ([Head url], Raised)
  end.

(** [check_link_active]: the answer and the cache afterwards. *)
Definition check_link_active (url : string) (cache : gmap string (bool * string))
  : Outcome * gmap string (bool * string) :=
  match cache !! url with
  | Some (is_active, updated_url) => (Returned is_active updated_url, cache)
  | None =>
      match snd (probe url) with
      | Returned is_active updated_url =>
          (Returned is_active updated_url, <[url := (is_active, updated_url)]> cache)
      | Raised => (Raised, cache)
      end
  end.

(** *** [parse_m3u_content] *)

(** The name of an [#EXTINF] line: group 1 of [,(.+)$] stripped, or the
    fallback; then whitespace runs collapsed and the result stripped. *)
Definition extinf_name (line : string) : string :=
  let name :=
    match Re.search_name line with
    | Some g => PyStr.strip g
    | None => "Unknown Channel"
    end in
  PyStr.strip (Re.sub_ws name).

Definition extinf_logo (line : string) : string :=
  match Re.search_attr "tvg-logo" line with
  | Some g => if PyStr.is_empty g then default_logo else g
  | None => default_logo
  end.

Definition extinf_group (line : string) : string :=
  match Re.search_attr "group-title" line with
  | Some g => g
  | None => "General"
  end.

Definition extinf_tvg_id (line : string) : string :=
  match Re.search_attr "tvg-id" line with
  | Some g => g
  | None => EmptyString
  end.

(** The dict built at an [#EXTINF] line, [added_date] read from the clock. *)
Definition extinf_channel (line source_url added_date : string) : Extinf :=
  let name := extinf_name line in
  mkExtinf (generate_channel_id name source_url) name (extinf_logo line)
           (extinf_group line) (extinf_tvg_id line) source_url added_date.

(** [self.seen_urls.add(url); self.channels[group].append(channel)] *)
Definition admit_channel (ch : Channel) (c : Collector) : Collector :=
  mkCollector (append_to (c_group ch) ch (channels c))
              ({[c_url ch]} ∪ seen_urls c)
              (url_status_cache c) (check_links c) (clock c).

Definition tick (c : Collector) : Collector :=
  mkCollector (channels c) (seen_urls c) (url_status_cache c)
              (check_links c) (S (clock c)).

(** One turn of the loop over the lines. *)
Definition m3u_line (source_url : string) (st : M3uLoop) (raw : string) : M3uLoop :=
  let line := PyStr.strip raw in
  if PyStr.startswith line "#EXTINF:" then
    mkM3uLoop
      (Some (extinf_channel line source_url (now (clock (self st)))))
      (channel_count st) (tick (self st))
  else
    match current_channel st with
    | Some e =>
        if PyStr.startswith_any line url_schemes then
          if bool_decide (line ∈ seen_urls (self st))
          then mkM3uLoop None (channel_count st) (self st)
          else mkM3uLoop None (S (channel_count st))
                         (admit_channel (with_url e line) (self st))
        else st
    | None => st
    end.

Definition m3u_loop (source_url : string) (lines : list string) (st : M3uLoop) : M3uLoop :=
  fold_left (m3u_line source_url) lines st.

Definition m3u_start (c : Collector) : M3uLoop := mkM3uLoop None 0 c.

Definition parse_m3u_content (lines : list string) (source_url : string)
           (c : Collector) : Collector :=
  self (m3u_loop source_url lines (m3u_start c)).

(** *** [parse_json_content] *)

Definition get_default (key : string) (fields : list (string * string))
           (default : string) : string :=
  match dict_get key fields with
  | Some v => v
  | None => default
  end.

(** One turn of the loop over the items; the second component is
    [channel_count]. *)
Definition json_item (source_url : string) (st : Collector * nat) (item : JsonItem)
  : Collector * nat :=
  let '(c, channel_count) := st in
  match item with
  | JDict fields =>
      match dict_get "url" fields with
      | Some url =>
          let name := get_default "name" fields "Unknown Channel" in
          let logo := get_default "img" fields (get_default "logo" fields default_logo) in
          let group := get_default "type" fields (get_default "category" fields "General") in
          if negb (PyStr.is_empty url) && negb (bool_decide (url ∈ seen_urls c))
          then
            let channel :=
              mkChannel (generate_channel_id name url) name logo group EmptyString
                        source_url (now (clock c)) url None in
            (tick (admit_channel channel c), S channel_count)
          else st
      | None => st
      end
  | JNotDict => st
  end.

Definition parse_json_content (content source_url : string) (c : Collector) : Collector :=
  match json_loads content with
  | Some (JList items) => fst (fold_left (json_item source_url) items (c, 0))
  | Some JNotList => c
  | None => c
  end.

(** *** [filter_active_channels] *)

(** The pool of probes is modelled by the order in which the probes
    complete, [as_completed]; the main thread alone touches the channels.
    The lock makes every access to the cache atomic; a probe is taken here
    as one step on the cache, which the answer does not depend on as long
    as the cache holds what the network answers.

    The body of the loop over the completed probes: an inactive channel
    gets its status set but is not kept; a probe that raised leaves its
    channel out as well. *)
Definition collect_result (st : gmap string (bool * string) * Store)
           (gc : string * Channel) : gmap string (bool * string) * Store :=
  let '(cache, active_channels) := st in
  let '(group, channel) := gc in
  match check_link_active (c_url channel) cache with
  | (Returned true updated_url, cache') =>
      (cache', append_to group (mark_active channel updated_url) active_channels)
  | (Returned false _, cache') => (cache', active_channels)
  | (Raised, cache') => (cache', active_channels)
  end.

Definition filter_active_channels (c : Collector) : Collector :=
  if negb (check_links c) then c
  else
    let '(cache, active_channels) :=
      fold_left collect_result (as_completed (all_channels (channels c)))
                (url_status_cache c, []) in
    mkCollector active_channels (seen_urls c) cache (check_links c) (clock c).

(** *** [process_sources] *)

(** The test of the [if]/[elif]/[else] on a fetched source. *)
Definition route (url content : string) : Parser :=
  if PyStr.endswith url ".html" || PyStr.contains "html" (PyStr.lower url)
  then HtmlScraper
  else if PyStr.endswith url ".json"
          || PyStr.contains "json" (PyStr.lower (PyStr.take 100 content))
  then JsonParser
  else PlaylistParser.

(** [self.channels.clear(); self.seen_urls.clear(); self.url_status_cache.clear()] *)
Definition clear (c : Collector) : Collector :=
  mkCollector [] ∅ ∅ (check_links c) (clock c).

(** The body of the first loop; the second component is [all_m3u_urls]. *)
Definition process_source (st : Collector * gset string) (url : string)
  : Collector * gset string :=
  let '(c, all_m3u_urls) := st in
  match fetch_content url with
  | (Some content, lines) =>
      if PyStr.is_empty content then st
      else
        match route url content with
        | HtmlScraper =>
            (c, all_m3u_urls ∪ list_to_set (extract_stream_urls_from_html content url))
        | JsonParser => (parse_json_content content url c, all_m3u_urls)
        | PlaylistParser => (parse_m3u_content lines url c, all_m3u_urls)
        end
  | (None, _) => st
  end.

(** The body of the second loop. *)
Definition process_discovered (c : Collector) (m3u_url : string) : Collector :=
  match snd (fetch_content m3u_url) with
  | [] => c
  | lines => parse_m3u_content lines m3u_url c
  end.

(** The fetch-and-parse phase of [process_sources]. *)
Definition ingest (source_urls : list string) (c : Collector) : Collector :=
  let '(c1, all_m3u_urls) := fold_left process_source source_urls (clear c, ∅) in
  fold_left process_discovered (elements all_m3u_urls) c1.

Definition process_sources (source_urls : list string) (c : Collector) : Collector :=
  let c' := ingest source_urls c in
  match channels c' with
  | [] => c'
  | _ => filter_active_channels c'
  end.

(** *** [main] *)

(** [get_premium_sources] *)
Definition get_premium_sources : list string :=
  [ "https://raw.githubusercontent.com/sydul104/main04/refs/heads/main/my";
    "https://raw.githubusercontent.com/Miraz6755/Bdixtv/refs/heads/main/Livetv.m3u8";
    "https://raw.githubusercontent.com/Yeadee/Toffee/refs/heads/main/toffee_ns_player.m3u";
    "https://raw.githubusercontent.com/MohammadJoyChy/BDIXTV/refs/heads/main/Aynaott";
    "https://raw.githubusercontent.com/skjahangirkabir/Bdix-549.m3u/refs/heads/main/BDIX-549.m3u8";
    "https://raw.githubusercontent.com/Arunjunan20/My-IPTV/refs/heads/main/index.html";
    "https://raw.githubusercontent.com/AHIL44444/GAZI-LIVE-TV-M3U8/refs/heads/main/index.html";
    "https://aynaxpranto.vercel.app/files/playlist.m3u";
    "https://raw.githubusercontent.com/tanvir907/bdix/refs/heads/main/bdix.m3u";
    "https://raw.githubusercontent.com/shuvo880/iptv/refs/heads/master/MiME%20(SHUVO)";
    "https://raw.githubusercontent.com/Shaharum1010/SmartFlix_Tv_Web/refs/heads/main/SmartFlixtv";
    "https://raw.githubusercontent.com/mr-masudrana/LiveTV/refs/heads/main/Bangla_Playlist.m3u";
    "https://raw.githubusercontent.com/mr-masudrana/Web_Player-IPTV/refs/heads/main/channels.json";
    "https://iptv-org.github.io/iptv/countries/bd.m3u";
    "https://raw.githubusercontent.com/FreeIPTV/Countries/master/BD_Bangladesh.m3u";
    "https://raw.githubusercontent.com/Free-TV/IPTV/master/playlist/BD.m3u8" ].

(** [os.getenv('SKIP_LINK_CHECK', 'false').lower() != 'true'] *)
Definition check_links_of_env (skip_link_check : option string) : bool :=
  negb (String.eqb (PyStr.lower (match skip_link_check with
                                 | Some v => v
                                 | None => "false"
                                 end)) "true").

(** The store that [main] ends with; the exporters only read it. *)
Definition main_store (skip_link_check : option string) : Store :=
  channels (process_sources get_premium_sources
              (new_collector (check_links_of_env skip_link_check))).

(** The exit status of [main] when the three exporters, which run between
    [process_sources] and the test, return: [sys.exit(1)] without channels,
    the end of the script otherwise.  An exporter that raises ends the
    process before the test.  In this model the group labels are strings,
    which [sorted] can always compare; a store with a label that is not a
    string has no term here. *)
Definition main (skip_link_check : option string) : Z :=
  if total_channels (main_store skip_link_check) =? 0 then 1%Z else 0%Z.

(** ** Definitions used to state the properties *)

(** *** Ingestion *)

(** One call of a parser during the fetch-and-parse phase. *)
Inductive ParserCall :=
  | PlaylistCall (lines : list string) (source_url : string)
  | JsonCall (content : string) (source_url : string).

Definition run_parser (c : Collector) (call : ParserCall) : Collector :=
  match call with
  | PlaylistCall lines source_url => parse_m3u_content lines source_url c
  | JsonCall content source_url => parse_json_content content source_url c
  end.

(** A step from [c] to [c'] admits at most one record, and admits it
    without a validation status and with a non-empty URL that [seen_urls]
    did not hold and holds afterwards. *)
Inductive admits (c c' : Collector) : Prop :=
  | admits_nothing :
      channels c' = channels c -> seen_urls c' = seen_urls c -> admits c c'
  | admits_record (ch : Channel) :
      c_status ch = None ->
      c_url ch <> EmptyString ->
      c_url ch ∉ seen_urls c ->
      channels c' = append_to (c_group ch) ch (channels c) ->
      seen_urls c' = {[c_url ch]} ∪ seen_urls c ->
      admits c c'.

(** A step of a parser: it admits at most one record and leaves the cache
    of the validation stage and the configuration alone. *)
Definition parser_step (c c' : Collector) : Prop :=
  admits c c' /\
  url_status_cache c' = url_status_cache c /\
  check_links c' = check_links c.

(** The URLs of the store are pairwise different, non-empty and in
    [seen_urls]. *)
Definition dedup_invariant (c : Collector) : Prop :=
  NoDup (store_urls (channels c)) /\
  forall u, u ∈ store_urls (channels c) -> u ∈ seen_urls c /\ u <> EmptyString.

(** No record of the store carries a validation status. *)
Definition unvalidated (c : Collector) : Prop :=
  forall gc, gc ∈ all_channels (channels c) -> c_status (snd gc) = None.

(** *** The liveness probe *)

(** The probes of the URL itself have failed, with the probes made: the
    header probe answered with a status from 400 on, or it raised a
    transport error and the content probe failed either way. *)
Inductive direct_probes_fail (url : string) : list Probe -> Prop :=
  | head_status_fails code :
      session_head url = Status code -> (400 <= code)%Z ->
      direct_probes_fail url [Head url]
  | get_status_fails code :
      session_head url = RequestException ->
      session_get url = Status code -> (400 <= code)%Z ->
      direct_probes_fail url [Head url; Get url]
  | get_raises :
      session_head url = RequestException ->
      session_get url = RequestException ->
      direct_probes_fail url [Head url; Get url].

(** The URL with its scheme flipped between http and https. *)
Definition flip_scheme (url : string) : string :=
  if PyStr.startswith url "https://" then "http://" +:+ PyStr.drop 8 url
  else if PyStr.startswith url "http://" then "https://" +:+ PyStr.drop 7 url
  else url.

(** The URLs that say their scheme once: [https://] or [http://] stands at
    the start of the URL or nowhere in it, and does not come again after
    the start. *)
Definition scheme_only_in_front (url : string) : bool :=
  if PyStr.startswith url "https://"
  then negb (PyStr.contains "https://" (PyStr.drop 8 url))
  else if PyStr.startswith url "http://"
       then negb (PyStr.contains "http://" (PyStr.drop 7 url))
       else negb (PyStr.contains "http://" url).

(** The fallback chain, as far as no probe raises anything but a transport
    error: the probes made, in order, and the answer.  The third probe is
    the header probe of the URL with its scheme flipped, and it is made
    when there is a scheme to flip. *)
Inductive fallback_chain (url : string) : list Probe -> Outcome -> Prop :=
  | chain_head code :
      session_head url = Status code -> (code < 400)%Z ->
      fallback_chain url [Head url] (Returned true url)
  | chain_get code :
      session_head url = RequestException ->
      session_get url = Status code -> (code < 400)%Z ->
      fallback_chain url [Head url; Get url] (Returned true url)
  | chain_flip t code :
      direct_probes_fail url t ->
      flip_scheme url <> url ->
      session_head (flip_scheme url) = Status code -> (code < 400)%Z ->
      fallback_chain url (t ++ [Head (flip_scheme url)])
                     (Returned true (flip_scheme url))
  | chain_flip_status_fails t code :
      direct_probes_fail url t ->
      flip_scheme url <> url ->
      session_head (flip_scheme url) = Status code -> (400 <= code)%Z ->
      fallback_chain url (t ++ [Head (flip_scheme url)]) (Returned false url)
  | chain_flip_raises t :
      direct_probes_fail url t ->
      flip_scheme url <> url ->
      session_head (flip_scheme url) = RequestException ->
      fallback_chain url (t ++ [Head (flip_scheme url)]) (Returned false url)
  | chain_no_flip t :
      direct_probes_fail url t ->
      flip_scheme url = url ->
      fallback_chain url t (Returned false url).

(** The chain in the words of the specification: the content probe follows
    any failure of the header probe, and the header probe of the flipped URL
    follows any failure of both. *)
Definition chain_of_spec (url : string) : list Probe * Outcome :=
  if below_400 (session_head url) then ([Head url], Returned true url)
  else if below_400 (session_get url)
  then ([Head url; Get url], Returned true url)
  else if below_400 (session_head (flip_scheme url))
  then ([Head url; Get url; Head (flip_scheme url)],
        Returned true (flip_scheme url))
  else ([Head url; Get url; Head (flip_scheme url)], Returned false url).

(** The cache holds what the probe of a URL answers. *)
Definition cache_consistent (cache : gmap string (bool * string)) : Prop :=
  forall url is_active updated_url,
    cache !! url = Some (is_active, updated_url) ->
    snd (probe url) = Returned is_active updated_url.

(** The record [ch] as the validation stage is to keep it: the status is
    [active], the URL is the resolved URL, and the other fields are as they
    were. *)
Definition resolved (ch : Channel) (updated_url : string) : Channel :=
  {| c_id := c_id ch; c_name := c_name ch; c_logo := c_logo ch;
     c_group := c_group ch; c_tvg_id := c_tvg_id ch; c_source := c_source ch;
     c_added_date := c_added_date ch;
     c_url := updated_url; c_status := Some "active" |}.

(** What the validation stage is to keep of a record of the store: the
    record of a URL whose probe answers active, resolved, under its group;
    nothing of a record whose probe answers inactive or raises. *)
Definition validated (gc : string * Channel) : option (string * Channel) :=
  match snd (probe (c_url (snd gc))) with
  | Returned true updated_url => Some (fst gc, resolved (snd gc) updated_url)
  | _ => None
  end.

End Collector.


(** *** Names, routes *)

Fixpoint mem_char (c : ascii) (s : string) : bool :=
  match s with
  | EmptyString => false
  | String c' s' => Ascii.eqb c' c || mem_char c s'
  end.

(** The text after the last comma of [line]; nothing without a comma. *)
Fixpoint after_final_comma (line : string) : option string :=
  match line with
  | EmptyString => None
  | String c s' =>
      match after_final_comma s' with
      | Some g => Some g
      | None => if Ascii.eqb c Re.comma then Some s' else None
      end
  end.

(** Whitespace collapsed to single spaces: the words of [s] joined by one
    space, [' '.join(s.split())]. *)
Definition collapse (s : string) : string := PyStr.join " " (PyStr.split s).

(** The name in the words of the specification. *)
Definition name_of_spec (line : string) : option string :=
  match after_final_comma line with
  | Some g => Some (collapse g)
  | None => None
  end.

(** The collapsed text, read off in one pass: [collapse_word] inside a word,
    [collapse_gap] in the whitespace after a word, [collapse_start] before
    the first word. *)
Fixpoint collapse_word (s : string) : string :=
  match s with
  | EmptyString => EmptyString
  | String c s' =>
      if PyStr.isspace c then collapse_gap s' else String c (collapse_word s')
  end
with collapse_gap (s : string) : string :=
  match s with
  | EmptyString => EmptyString
  | String c s' =>
      if PyStr.isspace c then collapse_gap s'
      else String " " (String c (collapse_word s'))
  end.

Fixpoint collapse_start (s : string) : string :=
  match s with
  | EmptyString => EmptyString
  | String c s' =>
      if PyStr.isspace c then collapse_start s' else String c (collapse_word s')
  end.

(** The first character, when there is one, is not whitespace. *)
Definition starts_black (s : string) : Prop :=
  match s with
  | EmptyString => True
  | String c _ => PyStr.isspace c = false
  end.

(** The routing in the words of the specification: a URL with [html] in it
    to the scraper; otherwise a URL with [json] in it, or content whose
    first 100 characters have [json] in them, to the JSON parser. *)
Definition route_of_spec (url content : string) : Parser :=
  if PyStr.endswith (PyStr.lower url) "html" || PyStr.contains "html" (PyStr.lower url)
  then HtmlScraper
  else if PyStr.endswith (PyStr.lower url) "json"
          || PyStr.contains "json" (PyStr.lower url)
          || PyStr.contains "json" (PyStr.lower (PyStr.take 100 content))
  then JsonParser
  else PlaylistParser.

(** *** Sample inputs *)

Definition sample_now (n : nat) : string := "2024-01-01T00:00:00+05:30".

Definition sample_source : string := "http://src.example/list.m3u".

(** A stream that answers the header probe only under https, and one that
    answers nothing. *)
Definition sample_head (url : string) : Response :=
  if String.eqb url "https://tv.example/1.m3u8" then Status 200
  else if String.eqb url "http://tv.example/1.m3u8" then Status 404
  else RequestException.

Definition sample_get (url : string) : Response := RequestException.

Definition sample_channel (name url : string) : Channel :=
  mkChannel (generate_channel_id name sample_source) name default_logo "General"
            EmptyString sample_source (sample_now 0) url None.

Definition sample_collector : Collector :=
  mkCollector
    [("General", [sample_channel "One" "http://tv.example/1.m3u8";
                  sample_channel "Two" "http://tv.example/2.m3u8"])]
    ({["http://tv.example/1.m3u8"]} ∪ {["http://tv.example/2.m3u8"]}) ∅ true 2.

(** A network on which every source is the same playlist of one channel. *)
Definition sample_fetch (url : string) : option string * list string :=
  (Some "#EXTINF:-1,One", ["#EXTINF:-1,One"; "http://tv.example/1.m3u8"]).

Definition sample_json_loads (content : string) : option JsonData := None.

Definition sample_extract (content url : string) : list string := [].

From Stdlib Require Import Sorted.

(** * The rest of the collector *)

(** ** [is_valid_stream_url] *)

Definition exclude_patterns : list string :=
  [ "telegram"; ".html"; ".php"; "github.com"; "login"; "signup";
    "facebook.com"; "twitter.com"; "instagram.com"; "youtube.com";
    "ads"; "advertising"; "tracker"; "analytics" ].

(** The regular expressions of [valid_patterns]: literal alternatives
    followed by [$], or a literal. *)
Inductive Pattern :=
  | AtEnd (alternatives : list string)
  | Anywhere (literal : string).

(** [\.m3u8?$], [\.ts$], [\.mp4$], [playlist], [stream], [live],
    [rtmp://], [rtsp://] *)
Definition valid_patterns : list Pattern :=
  [ AtEnd [".m3u"; ".m3u8"]; AtEnd [".ts"]; AtEnd [".mp4"];
    Anywhere "playlist"; Anywhere "stream"; Anywhere "live";
    Anywhere "rtmp://"; Anywhere "rtsp://" ].

(** [$] holds at the end of the string and before a line break that ends
    it. *)
Definition at_end (s literal : string) : bool :=
  PyStr.endswith s literal
  || PyStr.endswith s (literal +:+ String Re.newline EmptyString).

(** [re.search(pattern, s)] as a truth value. *)
Definition re_search (pattern : Pattern) (s : string) : bool :=
  match pattern with
  | AtEnd alternatives => existsb (at_end s) alternatives
  | Anywhere literal => PyStr.contains literal s
  end.

Definition is_valid_stream_url (url : string) : bool :=
  if PyStr.is_empty url then false
  else
    let url_lower := PyStr.lower url in
    if existsb (fun pattern => PyStr.contains pattern url_lower) exclude_patterns
    then false
    else existsb (fun pattern => re_search pattern url_lower) valid_patterns.

(** ** [extract_stream_urls_from_html] *)

(** An element that a selector finds, with its attributes [href] and
    [src]. *)
Record Element := mkElement {
  el_href : option string;
  el_src : option string }.

(** A selector [tag[attr*=value]], the value in double quotes. *)
Definition selector (tag attr value : string) : string :=
  tag +:+ "[" +:+ attr +:+ "*=" +:+ String Re.quote (value +:+ String Re.quote "]").

Definition selectors : list string :=
  [ selector "a" "href" ".m3u"; selector "a" "href" ".m3u8";
    selector "a" "href" "playlist"; selector "a" "href" "stream";
    selector "script" "src" ".m3u"; selector "script" "src" ".m3u8" ].

(** [element.get('href') or element.get('src')] *)
Definition element_url (element : Element) : option string :=
  match el_href element with
  | Some href => if PyStr.is_empty href then el_src element else Some href
  | None => el_src element
  end.

(** ** [fetch_content] *)

(** What [session.get] answers to an attempt: a
    [requests.RequestException], or a response with its status code, its
    [content-type] header when it has one, its text and the byte lines its
    [iter_lines] gives. *)
Inductive HttpAnswer :=
  | HttpRaises
  | HttpResponse (status_code : Z) (content_type : option string)
                 (text : string) (iter_lines : list string).

(** [response.raise_for_status()] raises on the status codes from 400 to
    599. *)
Definition raises_for_status (status_code : Z) : bool :=
  ((400 <=? status_code) && (status_code <? 600))%Z.

Definition max_retries : nat := 3.

(** ** The exporters *)

(** [self.author_info] *)
Record AuthorInfo := mkAuthorInfo {
  a_name : string;
  a_instagram : string;
  a_github : string;
  a_version : string }.

Definition author_info : AuthorInfo :=
  mkAuthorInfo "Aniket" "aniket_aep" "https://github.com/aniketsainiop" "2.0.2".

(** [sorted(self.channels.items())]: the keys of a dict are distinct, so
    that the order is that of the group labels, compared by code points. *)
Fixpoint insert_sorted (kv : string * list Channel) (l : Store) : Store :=
  match l with
  | [] => [kv]
  | x :: l' =>
      if String.leb (fst kv) (fst x) then kv :: l else x :: insert_sorted kv l'
  end.

Definition sorted_items (store : Store) : Store :=
  fold_right insert_sorted [] store.

(** The [#EXTINF] line of [export_m3u]. *)
Definition extinf_line (group : string) (channel : Channel) : string :=
  "#EXTINF:-1 tvg-id=" +:+ String Re.quote (c_tvg_id channel +:+
  String Re.quote (" tvg-logo=" +:+ String Re.quote (c_logo channel +:+
  String Re.quote (" group-title=" +:+ String Re.quote (group +:+
  String Re.quote ("," +:+ c_name channel)))))).

(** The lines that [export_m3u] writes, each without the line break that
    ends it. *)
Definition export_m3u_lines (store : Store) : list string :=
  [ "#EXTM3U";
    "#EXTINF:-1,AniXLinks - Generated by " +:+ a_name author_info +:+ " (@"
      +:+ a_instagram author_info +:+ ")";
    "#EXTVLCOPT:http-user-agent=AniXLinks/" +:+ a_version author_info;
    EmptyString ]
  ++ flat_map (fun gc => [extinf_line (fst gc) (snd gc); c_url (snd gc)])
              (all_channels (sorted_items store)).

(** The text that [export_m3u] writes. *)
Definition export_m3u (store : Store) : string :=
  fold_right (fun line text => line +:+ String Re.newline text) EmptyString
             (export_m3u_lines store).

(** The dict that [export_stats] dumps; [None] for [active_channels] is the
    string [not_checked]. *)
Record Stats := mkStats {
  s_generated_at : string;
  s_total_channels : nat;
  s_total_groups : nat;
  s_groups_breakdown : list (string * nat);
  s_author : AuthorInfo;
  s_active_channels : option nat }.

(** [channel.get("status") == "active"] *)
Definition is_active (channel : Channel) : bool :=
  match c_status channel with
  | Some status => String.eqb status "active"
  | None => false
  end.

(** A channel object of [export_anixlinks_json]. *)
Record ExportedChannel := mkExportedChannel {
  x_id : string;
  x_name : string;
  x_url : string;
  x_logo : string;
  x_tvg_id : string;
  x_source : string;
  x_added_date : string;
  x_status : string }.

Definition exported_channel (channel : Channel) : ExportedChannel :=
  mkExportedChannel (c_id channel) (c_name channel) (c_url channel)
                    (c_logo channel) (c_tvg_id channel) (c_source channel)
                    (c_added_date channel)
                    (match c_status channel with
                     | Some status => status
                     | None => "unknown"
                     end).

(** The [meta] of [export_anixlinks_json]. *)
Record ExportMeta := mkExportMeta {
  m_title : string;
  m_description : string;
  m_author : string;
  m_instagram : string;
  m_github : string;
  m_version : string;
  m_generated_at : string;
  m_generated_at_readable : string;
  m_timezone : string;
  m_total_channels : nat;
  m_total_groups : nat;
  m_groups : list string }.

(** The dict that [export_anixlinks_json] dumps. *)
Record ExportData := mkExportData {
  x_meta : ExportMeta;
  x_channels : list (string * list ExportedChannel) }.

Section Rest.

(** [datetime.now(...)] at its [n]-th reading, as [isoformat] and as
    [strftime] render it. *)
Variable now : nat -> string.
Variable now_readable : nat -> string.

(** [session.get(url, stream=True, ...)] at the [n]-th attempt, and
    [bytes.decode('utf-8', errors='ignore')]. *)
Variable session_get : string -> nat -> HttpAnswer.
Variable decode : string -> string.

(** [BeautifulSoup(html_content, 'html.parser').select(selector)],
    [urlparse(base_url)] as its scheme and its netloc, and [json.loads]. *)
Variable soup_select : string -> string -> list Element.
Variable urlparse : string -> string * string.
Variable json_loads : string -> option JsonData.

(** The [try] block of [fetch_content] on a response that raised nothing:
    [content] and [lines]. *)
Definition read_response (content_type : option string) (text : string)
           (iter_lines : list string) : string * list string :=
  let content_type :=
    PyStr.lower (match content_type with Some v => v | None => EmptyString end) in
  if PyStr.contains "json" content_type then (text, [text])
  else
    let lines :=
      List.map (fun line_bytes => PyStr.strip (decode line_bytes))
               (List.filter (fun line_bytes => negb (PyStr.is_empty line_bytes))
                            iter_lines) in
    (PyStr.join (String Re.newline EmptyString) lines, lines).

(** The loop of [fetch_content] from [attempt] on, with [remaining]
    attempts left. *)
Fixpoint fetch_attempts (url : string) (attempt remaining : nat)
  : option string * list string :=
  match remaining with
  | O => (None, [])
  | S remaining' =>
      match session_get url attempt with
      | HttpRaises => fetch_attempts url (S attempt) remaining'
      | HttpResponse status_code content_type text iter_lines =>
          if raises_for_status status_code
          then fetch_attempts url (S attempt) remaining'
          else
            match read_response content_type text iter_lines with
            | (_, []) => fetch_attempts url (S attempt) remaining'
            | (content, lines) => (Some content, lines)
            end
      end
  end.

Definition fetch_content (url : string) : option string * list string :=
  fetch_attempts url 0 max_retries.

(** The URL that an [href] stands for on the page [base_url]. *)
Definition absolute_href (base_url href : string) : string :=
  if PyStr.startswith_any href ["http://"; "https://"] then href
  else
    let '(scheme, netloc) := urlparse base_url in
    if PyStr.startswith href "/"
    then scheme +:+ "://" +:+ netloc +:+ href
    else scheme +:+ "://" +:+ netloc +:+ "/" +:+ href.

(** The body of the loop over the elements of a selector. *)
Definition add_element (base_url : string) (stream_urls : gset string)
           (element : Element) : gset string :=
  match element_url element with
  | Some href =>
      if PyStr.is_empty href then stream_urls
      else
        let href := absolute_href base_url href in
        if is_valid_stream_url href then {[href]} ∪ stream_urls else stream_urls
  | None => stream_urls
  end.

Definition add_selector (html_content base_url : string) (stream_urls : gset string)
           (selector : string) : gset string :=
  fold_left (add_element base_url) (soup_select html_content selector) stream_urls.

(** The body of the loop over the items of the page read as JSON. *)
Definition add_json_item (stream_urls : gset string) (item : JsonItem) : gset string :=
  match item with
  | JDict fields =>
      match dict_get "url" fields with
      | Some url =>
          if is_valid_stream_url url then {[url]} ∪ stream_urls else stream_urls
      | None => stream_urls
      end
  | JNotDict => stream_urls
  end.

(** The set [stream_urls] at the end of [extract_stream_urls_from_html]. *)
Definition stream_urls_of (html_content base_url : string) : gset string :=
  let stream_urls := fold_left (add_selector html_content base_url) selectors ∅ in
  match json_loads html_content with
  | Some (JList items) => fold_left add_json_item items stream_urls
  | _ => stream_urls
  end.

Definition extract_stream_urls_from_html (html_content base_url : string) : list string :=
  if PyStr.is_empty html_content then []
  else elements (stream_urls_of html_content base_url).

(** [export_stats] *)
Definition export_stats (c : Collector) : Stats :=
  mkStats (now (clock c))
          (total_channels (channels c))
          (List.length (channels c))
          (List.map (fun kv => (fst kv, List.length (snd kv))) (channels c))
          author_info
          (if check_links c
           then Some (List.length (List.filter (fun gc => is_active (snd gc))
                                               (all_channels (channels c))))
           else None).

(** [export_anixlinks_json] *)
Definition export_anixlinks_json (c : Collector) : ExportData :=
  mkExportData
    (mkExportMeta "AniXLinks - Live TV Channels"
                  "Curated collection of live TV channels from multiple sources"
                  (a_name author_info) (a_instagram author_info)
                  (a_github author_info) (a_version author_info)
                  (now (clock c)) (now_readable (clock c)) "Asia/Kolkata"
                  (total_channels (channels c)) (List.length (channels c))
                  (List.map fst (channels c)))
    (List.map (fun kv => (fst kv, List.map exported_channel (snd kv)))
              (sorted_items (channels c))).

End Rest.

(** ** Definitions used to state the further properties *)

Fixpoint all_chars (P : ascii -> bool) (s : string) : bool :=
  match s with
  | EmptyString => true
  | String c s' => P c && all_chars P s'
  end.

(** A digit or a letter from [a] to [f]. *)
Definition is_hex_digit (c : ascii) : bool :=
  let n := nat_of_ascii c in
  ((48 <=? n) && (n <=? 57)) || ((97 <=? n) && (n <=? 102)).

(** The lines that [parse_m3u_content] looks at. *)
Definition relevant_line (raw : string) : bool :=
  PyStr.startswith (PyStr.strip raw) "#EXTINF:"
  || PyStr.startswith_any (PyStr.strip raw) url_schemes.

(** The items that [parse_json_content] looks at: the dicts with a
    non-empty [url]. *)
Definition usable_item (item : JsonItem) : bool :=
  match item with
  | JDict fields =>
      match dict_get "url" fields with
      | Some url => negb (PyStr.is_empty url)
      | None => false
      end
  | JNotDict => false
  end.

(** The store is a dict of non-empty lists: the group labels are distinct,
    no group is empty and every record sits under its own group label. *)
Definition store_wf (store : Store) : Prop :=
  NoDup (List.map fst store) /\
  Forall (fun kv => snd kv <> [] /\
                    Forall (fun ch => c_group ch = fst kv) (snd kv)) store.

Section Attempts.

Variable decode : string -> string.

(** An attempt of [fetch_content] that does not return: the request raised,
    the status is an error, or the response has no lines. *)
Definition attempt_fails (answer : HttpAnswer) : bool :=
  match answer with
  | HttpRaises => true
  | HttpResponse status_code content_type text iter_lines =>
      raises_for_status status_code
      || match snd (read_response decode content_type text iter_lines) with
         | [] => true
         | _ => false
         end
  end.

End Attempts.

Section Found.

Variable urlparse : string -> string * string.

(** The URL [u] is the valid URL that [element] stands for on the page
    [base_url]: the [href] of the element, or its [src] when it has no
    [href] or an empty one; taken as it is when it starts with [http://] or
    [https://], put behind the scheme and the host of the page otherwise,
    with a slash between when it does not start with one. *)
Definition found_in_element (base_url : string) (element : Element) (u : string) : Prop :=
  exists href,
    href <> EmptyString /\
    (el_href element = Some href \/
     ((el_href element = None \/ el_href element = Some EmptyString) /\
      el_src element = Some href)) /\
    ((PyStr.startswith_any href ["http://"; "https://"] = true /\ u = href) \/
     (PyStr.startswith_any href ["http://"; "https://"] = false /\
      PyStr.startswith href "/" = true /\
      u = fst (urlparse base_url) +:+ "://" +:+ snd (urlparse base_url) +:+ href) \/
     (PyStr.startswith_any href ["http://"; "https://"] = false /\
      PyStr.startswith href "/" = false /\
      u = fst (urlparse base_url) +:+ "://" +:+ snd (urlparse base_url)
          +:+ "/" +:+ href)) /\
    is_valid_stream_url u = true.

End Found.

(** The URL [u] is the valid [url] of the dict [item]. *)
Definition found_in_item (item : JsonItem) (u : string) : Prop :=
  exists fields,
    item = JDict fields /\ dict_get "url" fields = Some u /\
    is_valid_stream_url u = true.

(** The groups stand in ascending order of their labels. *)
Definition ascending {A : Type} (l : list (string * A)) : Prop :=
  Sorted (fun a b => String.leb (fst a) (fst b) = true) l.

(** What a playlist carries of a record of the store: the key of its
    group and the four fields that [export_m3u] writes. *)
Definition playlist_entry (gc : string * Channel)
  : string * (string * string * string * string) :=
  (fst gc, (c_tvg_id (snd gc), c_logo (snd gc), c_name (snd gc), c_url (snd gc))).

(** A text that the attribute patterns and the name pattern read back as
    it stands between two double quotes before the comma of the name: no
    double quote, no comma and no line break in it. *)
Definition attribute_value (s : string) : bool :=
  negb (mem_char Re.quote s) && negb (mem_char Re.comma s)
  && negb (mem_char Re.newline s).

(** A record whose playlist lines [parse_m3u_content] reads back as they
    were written: the attribute values are as above and do not end like
    the opening of a later attribute, the logo and the name are not empty,
    the name is on one line with its whitespace collapsed, and the URL is a
    stripped line that starts with one of the schemes. *)
Definition exportable (gc : string * Channel) : bool :=
  let '(group, channel) := gc in
  attribute_value (c_tvg_id channel) && attribute_value (c_logo channel)
  && attribute_value group
  && negb (PyStr.endswith (c_tvg_id channel) "tvg-logo=")
  && negb (PyStr.endswith (c_tvg_id channel) "group-title=")
  && negb (PyStr.endswith (c_logo channel) "group-title=")
  && negb (PyStr.is_empty (c_logo channel))
  && negb (PyStr.is_empty (c_name channel))
  && negb (mem_char Re.newline (c_name channel))
  && String.eqb (collapse (c_name channel)) (c_name channel)
  && PyStr.startswith_any (c_url channel) url_schemes
  && negb (mem_char Re.newline (c_url channel))
  && String.eqb (PyStr.strip (c_url channel)) (c_url channel).

(** *** More sample inputs *)

(** A network on which every request raises. *)
Definition network_down (url : string) (attempt : nat) : HttpAnswer := HttpRaises.

(** A playlist of two channels and one comment. *)
Definition sample_playlist : list string :=
  [ "#EXTM3U";
    "#EXTINF:-1 group-title=" +:+ String Re.quote ("News" +:+
      String Re.quote ",One");
    "http://tv.example/1.m3u8";
    "#EXTINF:-1,Two";
    "http://tv.example/2.m3u8" ].

(** A page with two anchors, one with a relative [href] and one with the
    [href] of an excluded host; both have [.m3u] and [.m3u8] in them. *)
Definition sample_soup (html_content query : string) : list Element :=
  if String.eqb query (selector "a" "href" ".m3u")
     || String.eqb query (selector "a" "href" ".m3u8")
  then [ mkElement (Some "video.m3u8") None;
         mkElement (Some "https://facebook.com/x.m3u8") None ]
  else [].

(** [urlparse] on the URLs of the sample host. *)
Definition sample_urlparse (url : string) : string * string :=
  ("https", "example.com").

(** * Properties *)

(** ** The models of the library functions on known values *)

Example md5_empty :
  MD5.hexdigest [] = "d41d8cd98f00b204e9800998ecf8427e".
Proof. by vm_compute. Qed.

Example md5_abc :
  MD5.hexdigest (MD5.encode_utf8 "abc") = "900150983cd24fb0d6963f7d28e17f72".
Proof. by vm_compute. Qed.

Example md5_message_digest :
  MD5.hexdigest (MD5.encode_utf8 "message digest") =
  "f96b697d7cb7938d525a2f31aaf161d0".
Proof. by vm_compute. Qed.

(** Two blocks: 56 bytes of padding do not fit after 56 bytes of message. *)
Example md5_two_blocks :
  MD5.hexdigest (List.repeat 120%Z 56) = "668a72d5ba17f08e62dabcafad6db14b".
Proof. by vm_compute. Qed.

(** Code points from 128 on take two bytes. *)
Example md5_latin1 :
  MD5.hexdigest (MD5.encode_utf8
    (String (ascii_of_nat 233) (String "_" (String (ascii_of_nat 255) EmptyString)))) =
  "c49f59e5b796a6e8ba506777f2ebed3d".
Proof. by vm_compute. Qed.

Example generate_channel_id_sample :
  generate_channel_id "BBC World, HD" "src" = "12ce8d65".
Proof. by vm_compute. Qed.

Example strip_sample :
  PyStr.strip (String (ascii_of_nat 9) " a b " +:+ String (ascii_of_nat 133) EmptyString)
  = "a b".
Proof. reflexivity. Qed.

Example replace_all_occurrences :
  PyStr.replace "https://a/https://b" "https://" "http://" = "http://a/http://b".
Proof. reflexivity. Qed.

Example replace_does_not_overlap : PyStr.replace "aaa" "aa" "b" = "ba".
Proof. reflexivity. Qed.

(** The dot does not match a line break, so the leftmost comma that is
    followed by a line break further on does not match. *)
Example search_name_across_lines :
  Re.search_name ("a,b" +:+ String Re.newline "c,d") = Some "d".
Proof. reflexivity. Qed.

Example search_name_before_final_line_break :
  Re.search_name ("a,b" +:+ String Re.newline EmptyString) = Some "b".
Proof. reflexivity. Qed.

Example search_attr_sample :
  Re.search_attr "tvg-logo"
    ("#EXTINF:-1 tvg-logo=" +:+ String Re.quote ("x.png" +:+ String Re.quote ",A"))
  = Some "x.png".
Proof. reflexivity. Qed.

(** ** Strings *)

#[local] Arguments String.append !_ _ / : simpl nomatch.
#[local] Arguments PyStr.isspace : simpl never.
#[local] Arguments PyStr.lower_char : simpl never.

Lemma append_nil_r (s : string) : s +:+ EmptyString = s.
Proof. induction s as [|c s IH]; simpl; [done | by rewrite IH]. Qed.

Lemma append_assoc (a b c : string) : (a +:+ b) +:+ c = a +:+ (b +:+ c).
Proof. induction a as [|x a IH]; simpl; [done | by rewrite IH]. Qed.

Lemma prefix_app (p s : string) :
  String.prefix p s = true <-> exists r, s = p +:+ r.
Proof.
  revert s; induction p as [|a p IH]; intros s; simpl.
  - destruct s; split; eauto.
  - destruct s as [|b s]; simpl.
    + split; [done | intros [r Hr]; discriminate].
    + destruct (ascii_dec a b) as [->|Hne].
      * rewrite IH. split; intros [r Hr]; exists r; congruence.
      * split; [done | intros [r Hr]; congruence].
Qed.

Lemma contains_app (p s : string) :
  PyStr.contains p s = true <-> exists pre post, s = pre +:+ p +:+ post.
Proof.
  induction s as [|c s IH]; cbn [PyStr.contains].
  - rewrite orb_false_r, prefix_app. split.
    + intros [r Hr]. by exists EmptyString, r.
    + intros [[|x pre] [post H]]; simpl in H; [eauto | discriminate].
  - rewrite orb_true_iff, prefix_app, IH. split.
    + intros [[r Hr] | (pre & post & H)].
      * by exists EmptyString, r.
      * exists (String c pre), post. simpl. by rewrite H.
    + intros [[|x pre] [post H]]; simpl in H.
      * left. eauto.
      * right. exists pre, post. congruence.
Qed.

Lemma endswith_app (s p : string) :
  PyStr.endswith s p = true <-> exists pre, s = pre +:+ p.
Proof.
  unfold PyStr.endswith. induction s as [|c s IH]; cbn [PyStr.endswith_from].
  - rewrite orb_false_r, String.eqb_eq. split.
    + intros <-. by exists EmptyString.
    + intros [[|x pre] H]; simpl in H; [done | discriminate].
  - rewrite orb_true_iff, String.eqb_eq, IH. split.
    + intros [<- | [pre H]].
      * by exists EmptyString.
      * exists (String c pre). simpl. by rewrite H.
    + intros [[|x pre] H]; simpl in H.
      * by left.
      * right. exists pre. congruence.
Qed.

Lemma lower_app (a b : string) :
  PyStr.lower (a +:+ b) = PyStr.lower a +:+ PyStr.lower b.
Proof. induction a as [|x a IH]; simpl; [done | by rewrite IH]. Qed.

Lemma endswith_html_contains (url : string) :
  PyStr.endswith url ".html" = true ->
  PyStr.contains "html" (PyStr.lower url) = true.
Proof.
  rewrite endswith_app, contains_app. intros [pre ->].
  exists (PyStr.lower pre +:+ "."), EmptyString.
  by rewrite lower_app, append_assoc.
Qed.

(** ** Whitespace collapsing *)

Lemma split_from_some_nonempty (s w : string) :
  PyStr.split_from (Some w) s <> [].
Proof.
  revert w; induction s as [|c s IH]; intros w; simpl; [done|].
  destruct (PyStr.isspace c); [done | apply IH].
Qed.

Lemma collapse_gap_start (s : string) :
  collapse_gap s =
  match collapse_start s with
  | EmptyString => EmptyString
  | String c t => String " " (String c t)
  end.
Proof.
  induction s as [|c s IH]; simpl; [done|].
  by destruct (PyStr.isspace c).
Qed.

Lemma split_none_empty (s : string) :
  PyStr.split_from None s = [] -> collapse_start s = EmptyString.
Proof.
  induction s as [|c s IH]; simpl; [done|].
  destruct (PyStr.isspace c); [done|].
  intros H. by apply split_from_some_nonempty in H.
Qed.

Lemma collapse_start_empty (s : string) :
  collapse_start s = EmptyString -> PyStr.split_from None s = [].
Proof.
  induction s as [|c s IH]; simpl; [done|].
  by destruct (PyStr.isspace c).
Qed.

Lemma join_cons (w : string) (l : list string) :
  l <> [] -> PyStr.join " " (w :: l) = w +:+ String " " (PyStr.join " " l).
Proof. destruct l; [done | reflexivity]. Qed.

Lemma join_split_from (s : string) :
  (forall w, PyStr.join " " (PyStr.split_from (Some w) s) = w +:+ collapse_word s) /\
  PyStr.join " " (PyStr.split_from None s) = collapse_start s.
Proof.
  induction s as [|c s [IHw IHs]].
  - split; [intros w; simpl; by rewrite append_nil_r | done].
  - split.
    + intros w. cbn [PyStr.split_from collapse_word].
      destruct (PyStr.isspace c) eqn:Hc.
      * rewrite collapse_gap_start.
        destruct (PyStr.split_from None s) as [|x l] eqn:Hl.
        -- rewrite (split_none_empty s Hl). simpl. by rewrite append_nil_r.
        -- rewrite join_cons by done. rewrite IHs.
           destruct (collapse_start s) as [|d t] eqn:Hd; [|done].
           apply collapse_start_empty in Hd. congruence.
      * rewrite IHw. by rewrite append_assoc.
    + cbn [PyStr.split_from collapse_start].
      destruct (PyStr.isspace c); [done|]. by rewrite IHw.
Qed.

Lemma collapse_rstrip (t : string) :
  collapse_word (PyStr.rstrip t) = collapse_word t /\
  collapse_gap (PyStr.rstrip t) = collapse_gap t.
Proof.
  induction t as [|c t [IHw IHg]]; [done|].
  cbn [PyStr.rstrip collapse_word collapse_gap].
  destruct (PyStr.isspace c) eqn:Hc; simpl.
  - destruct (PyStr.rstrip t) eqn:Hr; simpl; rewrite ?Hc; by rewrite <- IHg.
  - rewrite Hc. by rewrite IHw.
Qed.

Lemma collapse_lstrip (s : string) :
  collapse_word (PyStr.lstrip s) = collapse_start s.
Proof.
  induction s as [|c s IH]; [done|].
  cbn [PyStr.lstrip collapse_start].
  destruct (PyStr.isspace c) eqn:Hc; [done|]. simpl. by rewrite Hc.
Qed.

Lemma rstrip_sub_ws (t : string) :
  PyStr.rstrip (Re.sub_ws_from false t) = collapse_word t /\
  PyStr.rstrip (Re.sub_ws_from true t) = collapse_start t.
Proof.
  induction t as [|c t [IHf IHt]]; [done|].
  cbn [Re.sub_ws_from collapse_word collapse_start].
  destruct (PyStr.isspace c) eqn:Hc.
  - split; [|done]. cbn [PyStr.rstrip]. rewrite IHt, collapse_gap_start.
    by destruct (collapse_start t).
  - cbn [PyStr.rstrip]. rewrite Hc, IHf. done.
Qed.

Lemma lstrip_starts_black (s : string) : starts_black (PyStr.lstrip s).
Proof.
  induction s as [|c s IH]; [done|]. simpl.
  by destruct (PyStr.isspace c) eqn:Hc.
Qed.

Lemma rstrip_starts_black (s : string) :
  starts_black s -> starts_black (PyStr.rstrip s).
Proof. destruct s as [|c s]; [done|]. simpl. intros Hc. by rewrite Hc. Qed.

Lemma lstrip_sub_ws (s : string) :
  starts_black s -> PyStr.lstrip (Re.sub_ws_from false s) = Re.sub_ws_from false s.
Proof. destruct s as [|c s]; [done|]. simpl. intros Hc. by rewrite Hc; simpl; rewrite Hc. Qed.

(** The regular-expression substitution between two strips is the
    collapsing of whitespace to single spaces. *)
Lemma strip_sub_ws_strip (s : string) :
  PyStr.strip (Re.sub_ws (PyStr.strip s)) = collapse s.
Proof.
  unfold PyStr.strip, Re.sub_ws, collapse, PyStr.split.
  rewrite lstrip_sub_ws
    by apply rstrip_starts_black, lstrip_starts_black.
  rewrite (proj1 (rstrip_sub_ws _)), (proj1 (collapse_rstrip _)).
  rewrite collapse_lstrip. symmetry. apply join_split_from.
Qed.

(** ** The name pattern *)

Lemma span_dot_line (g : string) :
  mem_char Re.newline g = false -> Re.span_dot g = (g, EmptyString).
Proof.
  induction g as [|c g IH]; simpl; [done|].
  intros [Hc Hg]%orb_false_iff. rewrite Hc, (IH Hg). done.
Qed.

Lemma match_dot_plus_eol_line (g : string) :
  g <> EmptyString -> mem_char Re.newline g = false ->
  Re.match_dot_plus_eol g = Some g.
Proof.
  intros Hne Hnl. unfold Re.match_dot_plus_eol. rewrite (span_dot_line g Hnl).
  by destruct g.
Qed.

Lemma search_name_first_comma (pre g : string) :
  mem_char Re.comma pre = false ->
  g <> EmptyString -> mem_char Re.newline g = false ->
  Re.search_name (pre +:+ "," +:+ g) = Some g.
Proof.
  intros Hpre Hne Hnl. induction pre as [|c pre IH]; simpl.
  - by rewrite match_dot_plus_eol_line.
  - simpl in Hpre. apply orb_false_iff in Hpre as [Hc Hpre].
    rewrite Hc. by apply IH.
Qed.

Lemma search_name_no_comma (s : string) :
  mem_char Re.comma s = false -> Re.search_name s = None.
Proof.
  induction s as [|c s IH]; simpl; [done|].
  intros [Hc Hs]%orb_false_iff. rewrite Hc. by apply IH.
Qed.

(** ** The loop of the playlist parser *)

Section Playlist.

Variable now : nat -> string.
Variable source_url : string.

#[local] Abbreviation step := (m3u_line now source_url).
#[local] Abbreviation loop := (m3u_loop now source_url).

Lemma url_line_not_extinf (line : string) :
  PyStr.startswith_any line url_schemes = true ->
  PyStr.startswith line "#EXTINF:" = false.
Proof.
  intros Hu. destruct (PyStr.startswith line "#EXTINF:") eqn:He; [|done].
  apply prefix_app in He as [r ->]. by vm_compute in Hu.
Qed.

Lemma loop_app (l1 l2 : list string) (st : M3uLoop) :
  loop (l1 ++ l2) st = loop l2 (loop l1 st).
Proof. apply fold_left_app. Qed.

(** An [#EXTINF] line replaces the pending record and reads the clock. *)
Lemma step_extinf (st : M3uLoop) (raw : string) :
  PyStr.startswith (PyStr.strip raw) "#EXTINF:" = true ->
  step st raw =
  mkM3uLoop
    (Some (extinf_channel (PyStr.strip raw) source_url (now (clock (self st)))))
    (channel_count st) (tick (self st)).
Proof. intros H. unfold m3u_line. by rewrite H. Qed.

(** A URL line with a pending record and a fresh URL admits the record. *)
Lemma step_url_fresh (st : M3uLoop) (e : Extinf) (raw : string) :
  current_channel st = Some e ->
  PyStr.startswith_any (PyStr.strip raw) url_schemes = true ->
  PyStr.strip raw ∉ seen_urls (self st) ->
  step st raw =
  mkM3uLoop None (S (channel_count st))
            (admit_channel (with_url e (PyStr.strip raw)) (self st)).
Proof.
  intros He Hu Hfresh. unfold m3u_line.
  rewrite (url_line_not_extinf _ Hu), He, Hu.
  by rewrite bool_decide_eq_false_2.
Qed.

(** A URL line with a pending record and a URL already seen drops the
    record. *)
Lemma step_url_seen (st : M3uLoop) (e : Extinf) (raw : string) :
  current_channel st = Some e ->
  PyStr.startswith_any (PyStr.strip raw) url_schemes = true ->
  PyStr.strip raw ∈ seen_urls (self st) ->
  step st raw = mkM3uLoop None (channel_count st) (self st).
Proof.
  intros He Hu Hseen. unfold m3u_line.
  rewrite (url_line_not_extinf _ Hu), He, Hu.
  by rewrite bool_decide_eq_true_2.
Qed.

(** A URL line without a pending record does nothing. *)
Lemma step_url_no_pending (st : M3uLoop) (raw : string) :
  current_channel st = None ->
  PyStr.startswith_any (PyStr.strip raw) url_schemes = true ->
  step st raw = st.
Proof.
  intros Hnone Hu. unfold m3u_line.
  by rewrite (url_line_not_extinf _ Hu), Hnone.
Qed.

(** Any other line does nothing. *)
Lemma step_other (st : M3uLoop) (raw : string) :
  PyStr.startswith (PyStr.strip raw) "#EXTINF:" = false ->
  PyStr.startswith_any (PyStr.strip raw) url_schemes = false ->
  step st raw = st.
Proof.
  intros He Hu. unfold m3u_line. rewrite He, Hu.
  by destruct (current_channel st).
Qed.

Lemma step_url_clears_pending (st : M3uLoop) (raw : string) :
  PyStr.startswith_any (PyStr.strip raw) url_schemes = true ->
  current_channel (step st raw) = None.
Proof.
  intros Hu. destruct (current_channel st) as [e|] eqn:He.
  - destruct (decide (PyStr.strip raw ∈ seen_urls (self st))).
    + by rewrite (step_url_seen st e).
    + by rewrite (step_url_fresh st e).
  - by rewrite step_url_no_pending.
Qed.

(** Lines among which there is no URL line leave the store, the seen URLs
    and the count alone, and what was pending before them does not matter
    once an [#EXTINF] line follows. *)
Lemma loop_without_url (mid : list string) (m2 : string) :
  Forall (fun l => PyStr.startswith_any (PyStr.strip l) url_schemes = false) mid ->
  PyStr.startswith (PyStr.strip m2) "#EXTINF:" = true ->
  forall pending n c,
    loop (mid ++ [m2]) (mkM3uLoop pending n c) =
    loop (mid ++ [m2]) (mkM3uLoop None n c) /\
    exists c',
      loop (mid ++ [m2]) (mkM3uLoop pending n c) =
      mkM3uLoop (Some (extinf_channel (PyStr.strip m2) source_url (now (clock c'))))
                n (tick c') /\
      channels c' = channels c /\ seen_urls c' = seen_urls c.
Proof.
  intros Hmid Hm2. induction Hmid as [|l mid Hl _ IH]; intros pending n c.
  - simpl. rewrite !step_extinf by done. simpl. split; [done|]. by exists c.
  - change (loop ((l :: mid) ++ [m2]) ?st) with (loop (mid ++ [m2]) (step st l)).
    destruct (PyStr.startswith (PyStr.strip l) "#EXTINF:") eqn:He.
    + rewrite !step_extinf by done. simpl. split; [done|].
      destruct (IH (Some (extinf_channel (PyStr.strip l) source_url (now (clock c))))
                   n (tick c)) as [_ (c' & Hc' & Hch & Hseen)].
      exists c'. by rewrite Hc'.
    + rewrite !step_other by done.
      destruct (IH pending n c) as [Heq Hex]. split; [|done].
      rewrite Heq. done.
Qed.

End Playlist.

(** ** The store *)

Lemma all_channels_append_to (g : string) (ch : Channel) (store : Store) :
  all_channels (append_to g ch store) ≡ₚ all_channels store ++ [(g, ch)].
Proof.
  induction store as [|[k chans] rest IH]; [done|].
  cbn [append_to]. destruct (String.eqb k g) eqn:Hk.
  - apply String.eqb_eq in Hk as ->. unfold all_channels. simpl.
    rewrite map_app, <- !app_assoc. apply Permutation_app_head.
    apply Permutation_app_comm.
  - unfold all_channels in *. simpl. rewrite IH. by rewrite app_assoc.
Qed.

Lemma store_urls_append_to (g : string) (ch : Channel) (store : Store) :
  store_urls (append_to g ch store) ≡ₚ store_urls store ++ [c_url ch].
Proof.
  unfold store_urls. rewrite all_channels_append_to. by rewrite map_app.
Qed.

Lemma total_channels_length (store : Store) :
  total_channels store = List.length (all_channels store).
Proof.
  unfold total_channels, all_channels.
  induction store as [|[k chans] rest IH]; [done|].
  simpl. rewrite length_app, length_map. by rewrite IH.
Qed.

(** ** Ingestion: what the parsers admit *)

Lemma admits_refl (c : Collector) : admits c c.
Proof. by apply admits_nothing. Qed.

Lemma admits_tick (c c' : Collector) : admits c c' -> admits c (tick c').
Proof.
  intros [Hch Hseen | ch Hst Hne Hfresh Hch Hseen].
  - by apply admits_nothing.
  - by apply (admits_record _ _ ch).
Qed.

Lemma admits_admit_channel (ch : Channel) (c : Collector) :
  c_status ch = None -> c_url ch <> EmptyString -> c_url ch ∉ seen_urls c ->
  admits c (admit_channel ch c).
Proof. intros. by apply (admits_record _ _ ch). Qed.

Lemma admits_dedup (c c' : Collector) :
  admits c c' -> dedup_invariant c -> dedup_invariant c'.
Proof.
  intros [Hch Hseen | ch Hst Hne Hfresh Hch Hseen] [Hnd Hin].
  - unfold dedup_invariant. by rewrite Hch, Hseen.
  - unfold dedup_invariant. rewrite Hch, Hseen.
    assert (c_url ch ∉ store_urls (channels c)) as Hnew.
    { intros H. by apply Hin in H as [H _]. }
    split.
    + rewrite store_urls_append_to. apply NoDup_app.
      split; [done|]. split; [|apply NoDup_singleton].
      intros u Hu ->%list_elem_of_singleton. done.
    + intros u. rewrite store_urls_append_to, elem_of_app, list_elem_of_singleton.
      intros [Hu | ->].
      * apply Hin in Hu as [Hu Hune]. split; [|done].
        apply elem_of_union. by right.
      * split; [|done]. apply elem_of_union. left. by apply elem_of_singleton.
Qed.

Lemma admits_unvalidated (c c' : Collector) :
  admits c c' -> unvalidated c -> unvalidated c'.
Proof.
  intros [Hch Hseen | ch Hst Hne Hfresh Hch Hseen] Hun gc.
  - rewrite Hch. apply Hun.
  - rewrite Hch, all_channels_append_to, elem_of_app, list_elem_of_singleton.
    intros [Hgc | ->]; [by apply Hun | done].
Qed.

Lemma url_line_nonempty (line : string) :
  PyStr.startswith_any line url_schemes = true -> line <> EmptyString.
Proof. by intros H ->. Qed.

Lemma m3u_line_admits (now : nat -> string) (source_url : string)
      (st : M3uLoop) (raw : string) :
  admits (self st) (self (m3u_line now source_url st raw)).
Proof.
  destruct (PyStr.startswith (PyStr.strip raw) "#EXTINF:") eqn:He.
  { rewrite step_extinf by done. apply admits_tick, admits_refl. }
  destruct (PyStr.startswith_any (PyStr.strip raw) url_schemes) eqn:Hu.
  2: { rewrite step_other by done. apply admits_refl. }
  destruct (current_channel st) as [e|] eqn:Hcur.
  2: { rewrite step_url_no_pending by done. apply admits_refl. }
  destruct (decide (PyStr.strip raw ∈ seen_urls (self st))) as [Hseen|Hfresh].
  - rewrite (step_url_seen _ _ st e) by done. apply admits_refl.
  - rewrite (step_url_fresh _ _ st e) by done.
    apply admits_admit_channel; [done | | done].
    by apply url_line_nonempty.
Qed.

Lemma json_item_admits (now : nat -> string) (source_url : string)
      (c : Collector) (n : nat) (item : JsonItem) :
  admits c (fst (json_item now source_url (c, n) item)).
Proof.
  unfold json_item. destruct item as [fields|]; [|apply admits_refl].
  destruct (dict_get "url" fields) as [url|]; [|apply admits_refl].
  destruct (PyStr.is_empty url) eqn:Hempty; [apply admits_refl|].
  destruct (bool_decide (url ∈ seen_urls c)) eqn:Hseen; [apply admits_refl|].
  apply bool_decide_eq_false in Hseen. simpl.
  apply admits_tick, admits_admit_channel; [done | | done].
  simpl. by intros ->.
Qed.

Lemma m3u_line_step (now : nat -> string) (source_url : string)
      (st : M3uLoop) (raw : string) :
  parser_step (self st) (self (m3u_line now source_url st raw)).
Proof.
  split; [apply m3u_line_admits|].
  unfold m3u_line. repeat case_match; done.
Qed.

Lemma json_item_step (now : nat -> string) (source_url : string)
      (c : Collector) (n : nat) (item : JsonItem) :
  parser_step c (fst (json_item now source_url (c, n) item)).
Proof.
  split; [apply json_item_admits|].
  unfold json_item. repeat case_match; done.
Qed.

Lemma step_dedup (c c' : Collector) :
  parser_step c c' -> dedup_invariant c -> dedup_invariant c'.
Proof. intros [H _]. by apply admits_dedup. Qed.

Lemma step_unvalidated (c c' : Collector) :
  parser_step c c' -> unvalidated c -> unvalidated c'.
Proof. intros [H _]. by apply admits_unvalidated. Qed.

(** The cache is empty and the configuration is [check]. *)
Lemma step_settings (check : bool) (c c' : Collector) :
  parser_step c c' ->
  url_status_cache c = ∅ /\ check_links c = check ->
  url_status_cache c' = ∅ /\ check_links c' = check.
Proof. intros (_ & -> & ->). done. Qed.

Section Invariants.

Variable now : nat -> string.
Variable fetch_content : string -> option string * list string.
Variable json_loads : string -> option JsonData.
Variable extract_stream_urls_from_html : string -> string -> list string.

(** A property of the collector that every step of a parser keeps. *)
Variable P : Collector -> Prop.
Hypothesis P_step : forall c c', parser_step c c' -> P c -> P c'.

Lemma m3u_loop_keeps (source_url : string) (lines : list string) (st : M3uLoop) :
  P (self st) -> P (self (m3u_loop now source_url lines st)).
Proof.
  revert st; induction lines as [|l lines IH]; intros st HP; [done|].
  apply IH. by eapply P_step; [apply m3u_line_step|].
Qed.

Lemma parse_m3u_content_keeps (lines : list string) (source_url : string) (c : Collector) :
  P c -> P (parse_m3u_content now lines source_url c).
Proof. intros HP. by apply m3u_loop_keeps. Qed.

Lemma json_items_keep (source_url : string) (items : list JsonItem) (st : Collector * nat) :
  P (fst st) -> P (fst (fold_left (json_item now source_url) items st)).
Proof.
  revert st; induction items as [|i items IH]; intros [c n] HP; [done|].
  apply IH. by eapply P_step; [apply json_item_step|].
Qed.

Lemma parse_json_content_keeps (content source_url : string) (c : Collector) :
  P c -> P (parse_json_content now json_loads content source_url c).
Proof.
  intros HP. unfold parse_json_content.
  destruct (json_loads content) as [[items|]|]; [|done..].
  by apply (json_items_keep source_url items (c, 0)).
Qed.

Lemma run_parser_keeps (c : Collector) (call : ParserCall) :
  P c -> P (run_parser now json_loads c call).
Proof.
  destruct call; [apply parse_m3u_content_keeps | apply parse_json_content_keeps].
Qed.

Lemma run_parsers_keep (calls : list ParserCall) (c : Collector) :
  P c -> P (fold_left (run_parser now json_loads) calls c).
Proof.
  revert c; induction calls as [|call calls IH]; intros c HP; [done|].
  by apply IH, run_parser_keeps.
Qed.

Lemma process_source_keeps (st : Collector * gset string) (url : string) :
  P (fst st) ->
  P (fst (process_source now fetch_content json_loads
            extract_stream_urls_from_html st url)).
Proof.
  destruct st as [c urls]. intros HP. unfold process_source.
  destruct (fetch_content url) as [[content|] lines]; [|done].
  destruct (PyStr.is_empty content); [done|].
  destruct (route url content); simpl;
    [done | by apply parse_json_content_keeps | by apply parse_m3u_content_keeps].
Qed.

Lemma process_discovered_keeps (c : Collector) (m3u_url : string) :
  P c -> P (process_discovered now fetch_content c m3u_url).
Proof.
  intros HP. unfold process_discovered.
  destruct (fetch_content m3u_url).2; [done | by apply parse_m3u_content_keeps].
Qed.

Lemma ingest_keeps (source_urls : list string) (c : Collector) :
  P (clear c) ->
  P (ingest now fetch_content json_loads extract_stream_urls_from_html source_urls c).
Proof.
  intros HP. unfold ingest.
  assert (forall st, P (fst st) ->
            P (fst (fold_left (process_source now fetch_content json_loads
                                 extract_stream_urls_from_html) source_urls st))) as Hfirst.
  { induction source_urls as [|u us IH]; intros st Hst; [done|].
    by apply IH, process_source_keeps. }
  specialize (Hfirst (clear c, ∅) HP).
  destruct (fold_left _ source_urls (clear c, ∅)) as [c1 urls]. simpl in Hfirst.
  generalize (elements urls). intros l. revert c1 Hfirst.
  induction l as [|u l IH]; intros c1 H1; [done|].
  by apply IH, process_discovered_keeps.
Qed.

End Invariants.

Lemma dedup_invariant_empty (c : Collector) :
  channels c = [] -> dedup_invariant c.
Proof.
  intros H. unfold dedup_invariant, store_urls. rewrite H. simpl.
  split; [apply NoDup_nil_2 | by intros u ?%elem_of_nil].
Qed.

Lemma unvalidated_empty (c : Collector) : channels c = [] -> unvalidated c.
Proof. intros H gc. rewrite H. by intros ?%elem_of_nil. Qed.

(** C1. In every run of the ingestion phase no two records of the store
    share a URL: each step of the two parsers admits at most one record, and
    admits it with a non-empty URL that [seen_urls] did not hold before the
    step and holds after it; so the URLs of the store are pairwise different
    after any sequence of calls of [parse_m3u_content] and
    [parse_json_content] on a new collector, and after the fetch-and-parse
    phase of [process_sources]. *)
Theorem admitted_urls_are_unique
        (now : nat -> string) (json_loads : string -> option JsonData) :
  (forall source_url st raw,
      admits (self st) (self (m3u_line now source_url st raw))) /\
  (forall source_url c n item,
      admits c (fst (json_item now source_url (c, n) item))) /\
  (forall check calls,
      NoDup (store_urls (channels
        (fold_left (run_parser now json_loads) calls (new_collector check))))) /\
  (forall fetch_content extract_stream_urls_from_html source_urls c,
      NoDup (store_urls (channels
        (ingest now fetch_content json_loads extract_stream_urls_from_html
                source_urls c)))).
Proof.
  split; [intros; apply m3u_line_admits|].
  split; [intros; apply json_item_admits|].
  split.
  - intros check calls.
    apply (run_parsers_keep now json_loads dedup_invariant step_dedup).
    by apply dedup_invariant_empty.
  - intros fetch_content extract source_urls c.
    apply (ingest_keeps now fetch_content json_loads extract
                        dedup_invariant step_dedup).
    by apply dedup_invariant_empty.
Qed.

(** ** The playlist parser *)

Lemma extinf_name_first_comma (line pre g : string) :
  line = pre +:+ "," +:+ g ->
  mem_char Re.comma pre = false ->
  g <> EmptyString -> mem_char Re.newline g = false ->
  extinf_name line = collapse g.
Proof.
  intros -> Hpre Hne Hnl. unfold extinf_name.
  rewrite search_name_first_comma by done. apply strip_sub_ws_strip.
Qed.

Lemma search_name_trailing_comma (pre : string) :
  mem_char Re.comma pre = false -> Re.search_name (pre +:+ ",") = None.
Proof.
  induction pre as [|c pre IH]; simpl; [done|].
  intros [Hc Hpre]%orb_false_iff. rewrite Hc. by apply IH.
Qed.

Lemma extinf_name_trailing_comma (line pre : string) :
  line = pre +:+ "," -> mem_char Re.comma pre = false ->
  extinf_name line = "Unknown Channel".
Proof.
  intros -> Hpre. unfold extinf_name. by rewrite search_name_trailing_comma.
Qed.

Lemma extinf_name_no_comma (line : string) :
  mem_char Re.comma line = false -> extinf_name line = "Unknown Channel".
Proof.
  intros H. unfold extinf_name. by rewrite search_name_no_comma.
Qed.



(** C8. An [#EXTINF] line followed by another [#EXTINF] line, with no URL
    line between the two, contributes no record: after the second line the
    store, the seen URLs and the count are what they were before the first,
    the pending record is the one the second line builds, and the loop is
    in the state it would be in had the first line only read the clock. *)
Theorem extinf_without_url_is_discarded
        (now : nat -> string) (source_url : string) (st : M3uLoop)
        (m1 : string) (mid : list string) (m2 : string) :
  PyStr.startswith (PyStr.strip m1) "#EXTINF:" = true ->
  Forall (fun l => PyStr.startswith_any (PyStr.strip l) url_schemes = false) mid ->
  PyStr.startswith (PyStr.strip m2) "#EXTINF:" = true ->
  let st' := m3u_loop now source_url (m1 :: mid ++ [m2]) st in
  channels (self st') = channels (self st) /\
  seen_urls (self st') = seen_urls (self st) /\
  channel_count st' = channel_count st /\
  (exists added_date,
      current_channel st' =
      Some (extinf_channel (PyStr.strip m2) source_url added_date)) /\
  st' = m3u_loop now source_url (mid ++ [m2])
                 (mkM3uLoop None (channel_count st) (tick (self st))).
Proof.
  intros Hm1 Hmid Hm2 st'.
  assert (st' = m3u_loop now source_url (mid ++ [m2])
                  (mkM3uLoop (Some (extinf_channel (PyStr.strip m1) source_url
                                                   (now (clock (self st)))))
                             (channel_count st) (tick (self st)))) as ->.
  { unfold st'. cbn [m3u_loop fold_left]. by rewrite step_extinf. }
  destruct (loop_without_url now source_url mid m2 Hmid Hm2
              (Some (extinf_channel (PyStr.strip m1) source_url
                                    (now (clock (self st)))))
              (channel_count st) (tick (self st)))
    as [Heq (c' & Hc' & Hch & Hseen)].
  rewrite Hc'. simpl. repeat split; [done | done | eauto |].
  by rewrite <- Hc', Heq.
Qed.

(** C10. A URL line that no pending [#EXTINF] line precedes produces no
    record and leaves the store and the seen URLs, as the whole state of the
    loop, unchanged.  Nothing is pending at the start of the input and after
    every URL line; and the parser ends in the same state with such a line
    removed from its input. *)
Theorem url_line_without_pending_is_ignored
        (now : nat -> string) (source_url : string) :
  (forall c, current_channel (m3u_start c) = None) /\
  (forall st u,
      PyStr.startswith_any (PyStr.strip u) url_schemes = true ->
      current_channel (m3u_line now source_url st u) = None) /\
  (forall st u,
      current_channel st = None ->
      PyStr.startswith_any (PyStr.strip u) url_schemes = true ->
      m3u_line now source_url st u = st) /\
  (forall pre u post st,
      current_channel (m3u_loop now source_url pre st) = None ->
      PyStr.startswith_any (PyStr.strip u) url_schemes = true ->
      m3u_loop now source_url (pre ++ u :: post) st =
      m3u_loop now source_url (pre ++ post) st).
Proof.
  split; [done|]. split; [apply step_url_clears_pending|].
  split; [apply step_url_no_pending|].
  intros pre u post st Hnone Hu. rewrite !loop_app.
  cbn [m3u_loop fold_left]. by rewrite step_url_no_pending.
Qed.

(** ** The liveness probe *)

Lemma replace_absent (old new s : string) :
  PyStr.contains old s = false -> PyStr.replace_from old new s 0 = s.
Proof.
  induction s as [|c s IH]; [done|].
  cbn [PyStr.contains PyStr.replace_from].
  intros [Hp Hs]%orb_false_iff. rewrite Hp, IH; done.
Qed.

Lemma alt_url_https (r : string) :
  alt_url ("https://" +:+ r) = "http://" +:+ PyStr.replace r "https://" "http://".
Proof. by destruct r. Qed.

Lemma alt_url_http (r : string) :
  alt_url ("http://" +:+ r) = "https://" +:+ PyStr.replace r "http://" "https://".
Proof. by destruct r. Qed.

Lemma alt_url_other (url : string) :
  PyStr.startswith url "https://" = false ->
  PyStr.contains "http://" url = false ->
  alt_url url = url.
Proof.
  intros Hs Hc. unfold alt_url. rewrite Hs. by apply replace_absent.
Qed.

(** On a URL that says its scheme once, the replacement of
    [check_link_active] is the flip of the scheme. *)
Lemma alt_url_flips (url : string) :
  scheme_only_in_front url = true -> alt_url url = flip_scheme url.
Proof.
  unfold scheme_only_in_front, flip_scheme.
  destruct (PyStr.startswith url "https://") eqn:Hs.
  - apply prefix_app in Hs as [r ->].
    change (PyStr.drop 8 ("https://" +:+ r)) with r.
    intros Hc%negb_true_iff. rewrite alt_url_https. unfold PyStr.replace.
    by rewrite replace_absent.
  - destruct (PyStr.startswith url "http://") eqn:Hp.
    + apply prefix_app in Hp as [r ->].
      change (PyStr.drop 7 ("http://" +:+ r)) with r.
      intros Hc%negb_true_iff. rewrite alt_url_http. unfold PyStr.replace.
      by rewrite replace_absent.
    + intros Hc%negb_true_iff. by apply alt_url_other.
Qed.

(** There is a scheme to flip exactly in the URLs that start with
    [http://] or [https://]. *)
Lemma flip_scheme_changes (url : string) :
  flip_scheme url <> url <->
  PyStr.startswith_any url ["http://"; "https://"] = true.
Proof.
  unfold flip_scheme, PyStr.startswith_any. cbn [existsb].
  rewrite orb_false_r.
  destruct (PyStr.startswith url "https://") eqn:Hs.
  - rewrite orb_true_r. apply prefix_app in Hs as [r ->]. by split.
  - rewrite orb_false_r.
    destruct (PyStr.startswith url "http://") eqn:Hp; [|by split].
    apply prefix_app in Hp as [r ->]. by split.
Qed.

Section Probe.

Variable session_head : string -> Response.
Variable session_get : string -> Response.

#[local] Abbreviation alt_probe := (probe_alt session_head).
#[local] Abbreviation direct_probe := (probe session_head session_get).
#[local] Abbreviation direct_fail := (direct_probes_fail session_head session_get).
#[local] Abbreviation chain := (fallback_chain session_head session_get).

Lemma probe_after_direct_failure (url : string) (t : list Probe) :
  direct_fail url t ->
  direct_probe url = (t ++ fst (alt_probe url), snd (alt_probe url)).
Proof.
  intros [code Hh Hc | code Hh Hg Hc | Hh Hg]; unfold probe;
    rewrite Hh, ?Hg; try (apply Z.ltb_ge in Hc; rewrite Hc); done.
Qed.

Lemma probe_alt_is_chain (url : string) (t : list Probe) :
  alt_url url = flip_scheme url ->
  direct_fail url t ->
  snd (alt_probe url) <> Raised ->
  chain url (t ++ fst (alt_probe url)) (snd (alt_probe url)).
Proof.
  intros Hflip Hfail. unfold probe_alt. rewrite Hflip.
  destruct (String.eqb (flip_scheme url) url) eqn:Halt; simpl.
  - intros _. rewrite app_nil_r. apply chain_no_flip; [done|].
    by apply String.eqb_eq.
  - apply String.eqb_neq in Halt.
    destruct (session_head (flip_scheme url)) as [code| |] eqn:Hh.
    + destruct (code <? 400)%Z eqn:Hc; simpl; intros _.
      * apply (chain_flip _ _ _ t code); [done..|]. by apply Z.ltb_lt.
      * apply (chain_flip_status_fails _ _ _ t code); [done..|]. by apply Z.ltb_ge.
    + simpl. intros _. by apply chain_flip_raises.
    + done.
Qed.

Lemma chain_is_probe (url : string) (t : list Probe) (o : Outcome) :
  alt_url url = flip_scheme url ->
  chain url t o -> direct_probe url = (t, o) /\ o <> Raised.
Proof.
  intros Hflip
         [code Hh Hc | code Hh Hg Hc | t0 code Hf Halt Hh Hc
         | t0 code Hf Halt Hh Hc | t0 Hf Halt Hh | t0 Hf Halt].
  - unfold probe. rewrite Hh. apply Z.ltb_lt in Hc. by rewrite Hc.
  - unfold probe. rewrite Hh, Hg. apply Z.ltb_lt in Hc. by rewrite Hc.
  - rewrite (probe_after_direct_failure url t0 Hf). unfold probe_alt.
    rewrite Hflip. apply String.eqb_neq in Halt. rewrite Halt, Hh. simpl.
    apply Z.ltb_lt in Hc. by rewrite Hc.
  - rewrite (probe_after_direct_failure url t0 Hf). unfold probe_alt.
    rewrite Hflip. apply String.eqb_neq in Halt. rewrite Halt, Hh. simpl.
    apply Z.ltb_ge in Hc. by rewrite Hc.
  - rewrite (probe_after_direct_failure url t0 Hf). unfold probe_alt.
    rewrite Hflip. apply String.eqb_neq in Halt. by rewrite Halt, Hh.
  - rewrite (probe_after_direct_failure url t0 Hf). unfold probe_alt.
    rewrite Hflip. apply String.eqb_eq in Halt. rewrite Halt. simpl.
    by rewrite app_nil_r.
Qed.

Lemma probe_is_chain (url : string) :
  alt_url url = flip_scheme url ->
  snd (direct_probe url) <> Raised ->
  chain url (fst (direct_probe url)) (snd (direct_probe url)).
Proof.
  intros Hflip.
  destruct (session_head url) as [code| |] eqn:Hh.
  - destruct (code <? 400)%Z eqn:Hc.
    + unfold probe. rewrite Hh, Hc. intros _.
      apply (chain_head _ _ _ code); [done|]. by apply Z.ltb_lt.
    + assert (direct_fail url [Head url]) as Hf.
      { apply (head_status_fails _ _ _ code); [done|]. by apply Z.ltb_ge. }
      rewrite (probe_after_direct_failure url _ Hf). by apply probe_alt_is_chain.
  - destruct (session_get url) as [code| |] eqn:Hg.
    + destruct (code <? 400)%Z eqn:Hc.
      * unfold probe. rewrite Hh, Hg, Hc. intros _.
        apply (chain_get _ _ _ code); [done..|]. by apply Z.ltb_lt.
      * assert (direct_fail url [Head url; Get url]) as Hf.
        { apply (get_status_fails _ _ _ code); [done..|]. by apply Z.ltb_ge. }
        rewrite (probe_after_direct_failure url _ Hf). by apply probe_alt_is_chain.
    + assert (direct_fail url [Head url; Get url]) as Hf.
      { by apply get_raises. }
      rewrite (probe_after_direct_failure url _ Hf). by apply probe_alt_is_chain.
    + unfold probe. by rewrite Hh, Hg.
  - unfold probe. by rewrite Hh.
Qed.

(** With a consistent cache [check_link_active] answers what the direct_probe
    answers, and leaves a consistent cache. *)
Lemma check_link_active_consistent (url : string) (cache : gmap string (bool * string)) :
  cache_consistent session_head session_get cache ->
  fst (check_link_active session_head session_get url cache) = snd (direct_probe url) /\
  cache_consistent session_head session_get
    (snd (check_link_active session_head session_get url cache)).
Proof.
  intros Hcache. unfold check_link_active.
  destruct (cache !! url) as [[a u]|] eqn:Hlook.
  - split; [|done]. symmetry. by apply Hcache.
  - destruct (snd (direct_probe url)) as [a u|] eqn:Hp; [|done].
    split; [done|]. simpl. intros url' a' u'.
    rewrite lookup_insert. case_decide as Heq.
    + intros [= <- <-]. by subst url'.
    + apply Hcache.
Qed.

End Probe.

(** What the probes of the URL itself give, whatever the URL. *)
Lemma direct_probes (session_head session_get : string -> Response) (url : string) :
  (forall code,
      session_head url = Status code -> (code < 400)%Z ->
      probe session_head session_get url = ([Head url], Returned true url)) /\
  (forall code,
      session_head url = RequestException ->
      session_get url = Status code -> (code < 400)%Z ->
      probe session_head session_get url =
      ([Head url; Get url], Returned true url)) /\
  (forall code,
      session_head url = Status code -> (400 <= code)%Z ->
      Get url ∉ fst (probe session_head session_get url)) /\
  (forall updated_url,
      snd (probe session_head session_get url) = Returned false updated_url ->
      updated_url = url).
Proof.
  split; [|split; [|split]].
  - intros code Hh Hc%Z.ltb_lt. unfold probe. by rewrite Hh, Hc.
  - intros code Hh Hg Hc%Z.ltb_lt. unfold probe. by rewrite Hh, Hg, Hc.
  - intros code Hh Hc%Z.ltb_ge. unfold probe, probe_alt. rewrite Hh, Hc.
    destruct (negb (String.eqb (alt_url url) url)); simpl.
    + destruct (session_head (alt_url url)) as [code'| |];
        [destruct (code' <? 400)%Z|..]; simpl;
        intros [H | [H | H%elem_of_nil]%elem_of_cons]%elem_of_cons; done.
    + intros [H | H%elem_of_nil]%elem_of_cons; done.
  - intros u. unfold probe, probe_alt.
    destruct (session_head url) as [code| |]; [destruct (code <? 400)%Z|..];
      try destruct (session_get url) as [code'| |];
      try destruct (code' <? 400)%Z;
      try destruct (negb (String.eqb (alt_url url) url));
      try destruct (session_head (alt_url url)) as [code''| |];
      try destruct (code'' <? 400)%Z; simpl; congruence.
Qed.

(** C2 (as amended). Past the cache, [check_link_active] first makes the
    header probe of the URL, which succeeds on a status below 400.  It
    makes the streamed content probe of the URL, with the same threshold,
    only when the header probe raised a transport error, and not when it
    answered with a status from 400 on.  For a URL that says its scheme
    once, at its start or not at all, it makes exactly the probes of
    [fallback_chain], in its order, and answers what it says: after the
    probes of the URL have failed, and when the URL starts with [http://]
    or [https://], the header probe of the URL with its scheme flipped; and
    (inactive, original URL) when all that were made fail.  An inactive
    answer carries the original URL, whatever the URL.  A URL of the cache
    is answered from the cache, and the answer of a URL that is not in the
    cache is the answer of the chain. *)
Theorem check_link_active_fallback_chain
        (session_head session_get : string -> Response) (url : string) :
  (scheme_only_in_front url = true ->
   forall t o,
     fallback_chain session_head session_get url t o <->
     probe session_head session_get url = (t, o) /\ o <> Raised) /\
  (flip_scheme url <> url <->
   PyStr.startswith_any url ["http://"; "https://"] = true) /\
  (forall code,
      session_head url = Status code -> (code < 400)%Z ->
      probe session_head session_get url = ([Head url], Returned true url)) /\
  (forall code,
      session_head url = RequestException ->
      session_get url = Status code -> (code < 400)%Z ->
      probe session_head session_get url =
      ([Head url; Get url], Returned true url)) /\
  (forall code,
      session_head url = Status code -> (400 <= code)%Z ->
      Get url ∉ fst (probe session_head session_get url)) /\
  (forall updated_url,
      snd (probe session_head session_get url) = Returned false updated_url ->
      updated_url = url) /\
  (forall cache,
      cache !! url = None ->
      fst (check_link_active session_head session_get url cache) =
      snd (probe session_head session_get url)) /\
  (forall cache is_active updated_url,
      cache !! url = Some (is_active, updated_url) ->
      check_link_active session_head session_get url cache =
      (Returned is_active updated_url, cache)).
Proof.
  split.
  { intros Hflip%alt_url_flips t o. split; [by apply chain_is_probe|].
    intros [Hp Ho].
    pose proof (probe_is_chain session_head session_get url Hflip) as H.
    rewrite Hp in H. by apply H. }
  split; [apply flip_scheme_changes|].
  destruct (direct_probes session_head session_get url) as (H1 & H2 & H3 & H4).
  split; [done|]. split; [done|]. split; [done|]. split; [done|]. split.
  { intros cache Hmiss. unfold check_link_active. rewrite Hmiss.
    by destruct (snd (probe session_head session_get url)). }
  intros cache a u Hhit. unfold check_link_active. by rewrite Hhit.
Qed.

(** C2, as stated, fails: after a header probe that answered 405 the code
    makes no content probe, although the content probe would answer 200. *)
Lemma content_probe_skipped_after_error_status :
  let session_head := fun u => if String.eqb u "http://tv.example/live.m3u8"
                               then Status 405 else RequestException in
  let session_get := fun _ : string => Status 200 in
  let url := "http://tv.example/live.m3u8" in
  probe session_head session_get url =
    ([Head url; Head "https://tv.example/live.m3u8"], Returned false url) /\
  chain_of_spec session_head session_get url =
    ([Head url; Get url], Returned true url) /\
  probe session_head session_get url <> chain_of_spec session_head session_get url.
Proof. by vm_compute. Qed.

(** ** The validation stage *)

Section Validation.

Variable session_head : string -> Response.
Variable session_get : string -> Response.

#[local] Abbreviation collect := (collect_result session_head session_get).
#[local] Abbreviation kept := (validated session_head session_get).
#[local] Abbreviation consistent := (cache_consistent session_head session_get).

Lemma collect_result_step (cache : gmap string (bool * string)) (active : Store)
      (gc : string * Channel) :
  consistent cache ->
  consistent (fst (collect (cache, active) gc)) /\
  all_channels (snd (collect (cache, active) gc)) ≡ₚ
    all_channels active ++ option_list (kept gc).
Proof.
  intros Hcache. destruct gc as [g ch]. unfold collect_result.
  destruct (check_link_active_consistent session_head session_get
              (c_url ch) cache Hcache) as [Hfst Hsnd].
  destruct (check_link_active session_head session_get (c_url ch) cache)
    as [o cache'].
  simpl in Hfst, Hsnd. unfold validated. simpl. rewrite <- Hfst.
  destruct o as [[|] u|]; simpl; rewrite ?app_nil_r; try done.
  split; [done | apply all_channels_append_to].
Qed.

Lemma collect_results (l : list (string * Channel))
      (cache : gmap string (bool * string)) (active : Store) :
  consistent cache ->
  consistent (fst (fold_left collect l (cache, active))) /\
  all_channels (snd (fold_left collect l (cache, active))) ≡ₚ
    all_channels active ++ omap kept l.
Proof.
  revert cache active. induction l as [|gc l IH]; intros cache active Hcache.
  - simpl. by rewrite app_nil_r.
  - destruct (collect_result_step cache active gc Hcache) as [Hc1 Hp1].
    cbn [fold_left]. destruct (collect (cache, active) gc) as [cache1 active1].
    destruct (IH cache1 active1 Hc1) as [Hc2 Hp2]. split; [done|].
    rewrite Hp2. simpl in Hp1. rewrite Hp1, <- app_assoc.
    apply Permutation_app_head. cbn [omap list_omap].
    by destruct (kept gc).
Qed.

End Validation.

Lemma ingest_unvalidated
      (now : nat -> string) (fetch_content : string -> option string * list string)
      (json_loads : string -> option JsonData)
      (extract_stream_urls_from_html : string -> string -> list string)
      (source_urls : list string) (c : Collector) :
  unvalidated (ingest now fetch_content json_loads extract_stream_urls_from_html
                      source_urls c).
Proof.
  apply (ingest_keeps now fetch_content json_loads extract_stream_urls_from_html
                      unvalidated step_unvalidated).
  by apply unvalidated_empty.
Qed.

Section Stage.

Variable session_head : string -> Response.
Variable session_get : string -> Response.
Variable as_completed : list (string * Channel) -> list (string * Channel).

(** The probes complete in some order. *)
Hypothesis as_completed_permutes : forall l, as_completed l ≡ₚ l.

#[local] Abbreviation stage :=
  (filter_active_channels session_head session_get as_completed).
#[local] Abbreviation kept := (validated session_head session_get).

Lemma stage_keeps_validated (c : Collector) :
  cache_consistent session_head session_get (url_status_cache c) ->
  check_links c = true ->
  all_channels (channels (stage c)) ≡ₚ omap kept (all_channels (channels c)).
Proof.
  intros Hcache Hcheck. unfold filter_active_channels. rewrite Hcheck. simpl.
  destruct (collect_results session_head session_get
              (as_completed (all_channels (channels c)))
              (url_status_cache c) [] Hcache) as [_ Hp].
  destruct (fold_left _ _ _) as [cache active]. simpl in *.
  by rewrite Hp, as_completed_permutes.
Qed.

Lemma stage_skipped (c : Collector) : check_links c = false -> stage c = c.
Proof. intros Hcheck. unfold filter_active_channels. by rewrite Hcheck. Qed.

Lemma elem_of_kept (l : list (string * Channel)) (g : string) (ch : Channel) :
  (g, ch) ∈ omap kept l <->
  exists ch0 updated_url,
    (g, ch0) ∈ l /\
    snd (probe session_head session_get (c_url ch0)) = Returned true updated_url /\
    ch = resolved ch0 updated_url.
Proof.
  rewrite list_elem_of_omap. split.
  - intros [[g0 ch0] [Hin Hv]]. unfold validated in Hv. simpl in Hv.
    destruct (snd (probe _ _ (c_url ch0))) as [[|] u|] eqn:Hp; [|done..].
    injection Hv as <- <-. by exists ch0, u.
  - intros (ch0 & u & Hin & Hp & ->). exists (g, ch0). split; [done|].
    unfold validated. simpl. by rewrite Hp.
Qed.

Section Run.

Variable now : nat -> string.
Variable fetch_content : string -> option string * list string.
Variable json_loads : string -> option JsonData.
Variable extract_stream_urls_from_html : string -> string -> list string.

#[local] Abbreviation ingested :=
  (ingest now fetch_content json_loads extract_stream_urls_from_html).
#[local] Abbreviation processed :=
  (process_sources now session_head session_get as_completed fetch_content
                   json_loads extract_stream_urls_from_html).

(** The fetch-and-parse phase leaves the cache empty and the configuration
    as it was. *)
Lemma ingest_settings (source_urls : list string) (c : Collector) :
  url_status_cache (ingested source_urls c) = ∅ /\
  check_links (ingested source_urls c) = check_links c.
Proof.
  by apply (ingest_keeps now fetch_content json_loads
                         extract_stream_urls_from_html _
                         (step_settings (check_links c))).
Qed.

(** In a run of [process_sources] the store ends as the store of the
    fetch-and-parse phase, validated or left as it is. *)
Lemma process_sources_validates (source_urls : list string) (c : Collector) :
  (check_links c = true ->
     all_channels (channels (processed source_urls c)) ≡ₚ
       omap kept (all_channels (channels (ingested source_urls c)))) /\
  (check_links c = false ->
     processed source_urls c = ingested source_urls c).
Proof.
  destruct (ingest_settings source_urls c) as [Hcache Hcheck].
  unfold process_sources.
  destruct (channels (ingested source_urls c)) as [|kv rest] eqn:Hch.
  - split; [|done]. intros _. by rewrite Hch.
  - split; intros Hc; rewrite Hc in Hcheck.
    + rewrite <- Hch. apply stage_keeps_validated; [|done].
      rewrite Hcache. intros url a u H. by rewrite lookup_empty in H.
    + by apply stage_skipped.
Qed.

End Run.

End Stage.

(** C3. With checking enabled [filter_active_channels] leaves in the store
    exactly the records whose probe succeeded, each under its group, with
    status [active], its URL rewritten to the resolved URL and its other
    fields as they were, whatever the order in which the probes complete; a
    record whose probe failed or raised is absent.  With checking disabled
    the collector is unchanged, and no record that the fetch-and-parse
    phase left in the store carries a validation status.  So it is in every
    run of [process_sources], where the stage starts on an empty cache. *)
Theorem validation_keeps_exactly_the_active
        (session_head session_get : string -> Response)
        (as_completed : list (string * Channel) -> list (string * Channel)) :
  (forall l, as_completed l ≡ₚ l) ->
  let stage := filter_active_channels session_head session_get as_completed in
  let kept := validated session_head session_get in
  (forall c,
      cache_consistent session_head session_get (url_status_cache c) ->
      check_links c = true ->
      all_channels (channels (stage c)) ≡ₚ omap kept (all_channels (channels c)) /\
      (forall g ch,
          (g, ch) ∈ all_channels (channels (stage c)) <->
          exists ch0 updated_url,
            (g, ch0) ∈ all_channels (channels c) /\
            snd (probe session_head session_get (c_url ch0)) =
              Returned true updated_url /\
            c_url ch = updated_url /\
            c_status ch = Some "active" /\
            c_id ch = c_id ch0 /\ c_name ch = c_name ch0 /\
            c_logo ch = c_logo ch0 /\ c_group ch = c_group ch0 /\
            c_tvg_id ch = c_tvg_id ch0 /\ c_source ch = c_source ch0 /\
            c_added_date ch = c_added_date ch0) /\
      (forall g ch,
          (g, ch) ∈ all_channels (channels (stage c)) ->
          c_status ch = Some "active")) /\
  (forall c, check_links c = false -> stage c = c) /\
  (forall now fetch_content json_loads extract_stream_urls_from_html source_urls c,
      let ingested := ingest now fetch_content json_loads
                             extract_stream_urls_from_html source_urls c in
      let processed := process_sources now session_head session_get as_completed
                         fetch_content json_loads extract_stream_urls_from_html
                         source_urls c in
      unvalidated ingested /\
      (check_links c = true ->
         all_channels (channels processed) ≡ₚ
           omap kept (all_channels (channels ingested))) /\
      (check_links c = false -> processed = ingested)).
Proof.
  intros Hperm stage kept. split; [|split].
  - intros c Hcache Hcheck.
    pose proof (stage_keeps_validated session_head session_get as_completed
                  Hperm c Hcache Hcheck) as Hkept.
    split; [done|]. split.
    + intros g ch. unfold stage. rewrite Hkept, elem_of_kept. split.
      * intros (ch0 & u & Hin & Hp & ->). exists ch0, u. by repeat split.
      * intros (ch0 & u & Hin & Hp & Hfields). exists ch0, u.
        split; [done|]. split; [done|].
        destruct ch. simpl in Hfields. unfold resolved.
        destruct Hfields as (-> & -> & -> & -> & -> & -> & -> & -> & ->).
        reflexivity.
    + intros g ch. unfold stage. rewrite Hkept.
      by intros (ch0 & u & _ & _ & ->)%elem_of_kept.
  - intros c. apply stage_skipped.
  - intros now fetch_content json_loads extract source_urls c ingested processed.
    split; [apply ingest_unvalidated|].
    by apply process_sources_validates.
Qed.

(** ** Routing *)

(** The three tests of the driver, on the URL and the content alone. *)
Lemma route_decides (url content : string) :
  (route url content = HtmlScraper <->
     exists pre post, PyStr.lower url = pre +:+ "html" +:+ post) /\
  (route url content = JsonParser <->
     ~ (exists pre post, PyStr.lower url = pre +:+ "html" +:+ post) /\
     ((exists pre, url = pre +:+ ".json") \/
      (exists pre post,
          PyStr.lower (PyStr.take 100 content) = pre +:+ "json" +:+ post))) /\
  (route url content = PlaylistParser <->
     ~ (exists pre post, PyStr.lower url = pre +:+ "html" +:+ post) /\
     ~ (exists pre, url = pre +:+ ".json") /\
     ~ (exists pre post,
           PyStr.lower (PyStr.take 100 content) = pre +:+ "json" +:+ post)).
Proof.
  rewrite <- !contains_app, <- endswith_app. unfold route.
  pose proof (endswith_html_contains url) as Hhtml.
  destruct (PyStr.endswith url ".html");
    destruct (PyStr.contains "html" (PyStr.lower url));
    destruct (PyStr.endswith url ".json");
    destruct (PyStr.contains "json" (PyStr.lower (PyStr.take 100 content)));
    simpl; try (specialize (Hhtml eq_refl); discriminate);
    intuition congruence.
Qed.

(** C5 (as amended). The driver sends a fetched source with content to one
    parser, chosen by syntax alone.  When the lower-cased URL has [html] in
    it, the source goes to the HTML scraper: the URLs that the scraper
    finds in the content join the discovered URLs and the collector stays
    as it is.  Otherwise, when the URL ends in [.json] or the first 100
    characters of the content, lower-cased, have [json] in them, the content
    goes to the JSON parser.  Otherwise the lines go to the playlist
    parser.  A URL that has [json] in it without ending in [.json] does not
    by itself select the JSON parser. *)
Theorem route_is_syntactic
        (now : nat -> string) (fetch_content : string -> option string * list string)
        (json_loads : string -> option JsonData)
        (extract_stream_urls_from_html : string -> string -> list string)
        (url content : string) (lines : list string)
        (c : Collector) (all_m3u_urls : gset string) :
  fetch_content url = (Some content, lines) ->
  content <> EmptyString ->
  let html := exists pre post, PyStr.lower url = pre +:+ "html" +:+ post in
  let json :=
    (exists pre, url = pre +:+ ".json") \/
    (exists pre post,
        PyStr.lower (PyStr.take 100 content) = pre +:+ "json" +:+ post) in
  let after :=
    process_source now fetch_content json_loads extract_stream_urls_from_html
                   (c, all_m3u_urls) url in
  (html ->
   after = (c, all_m3u_urls
               ∪ list_to_set (extract_stream_urls_from_html content url))) /\
  (~ html -> json ->
   after = (parse_json_content now json_loads content url c, all_m3u_urls)) /\
  (~ html -> ~ json ->
   after = (parse_m3u_content now lines url c, all_m3u_urls)).
Proof.
  intros Hfetch Hcontent html json after.
  assert (after =
          match route url content with
          | HtmlScraper =>
              (c, all_m3u_urls
                  ∪ list_to_set (extract_stream_urls_from_html content url))
          | JsonParser => (parse_json_content now json_loads content url c,
                           all_m3u_urls)
          | PlaylistParser => (parse_m3u_content now lines url c, all_m3u_urls)
          end) as ->.
  { unfold after, process_source. rewrite Hfetch.
    by destruct content. }
  destruct (route_decides url content) as (Hhtml & Hjson & Hplaylist).
  split; [|split].
  - intros H. by rewrite (proj2 Hhtml H).
  - intros Hn H. by rewrite (proj2 Hjson (conj Hn H)).
  - intros Hn H. rewrite (proj2 Hplaylist); [done|].
    split; [done|]. split; intros H'; apply H; [by left | by right].
Qed.

(** C5, as stated, fails: a source whose URL has [json] in it without
    ending in [.json], and whose content has no [json] in it, is read by
    the playlist parser, which finds its channel, and not by the JSON
    parser, which would find none. *)
Lemma json_in_url_goes_to_playlist_parser :
  let url := "https://example.com/json/playlist.m3u" in
  let content := "#EXTINF:-1,One" in
  let lines := ["#EXTINF:-1,One"; "http://tv.example/1.m3u8"] in
  let c := new_collector true in
  let after :=
    process_source sample_now sample_fetch sample_json_loads sample_extract
                   (c, ∅) url in
  sample_fetch url = (Some content, lines) /\
  route_of_spec url content = JsonParser /\
  fst after = parse_m3u_content sample_now lines url c /\
  total_channels (channels (fst after)) = 1 /\
  total_channels
    (channels (parse_json_content sample_now sample_json_loads content url c)) = 0 /\
  fst after <> parse_json_content sample_now sample_json_loads content url c.
Proof.
  intros url content lines c after.
  assert (total_channels (channels (fst after)) = 1) as Hone by (by vm_compute).
  assert (total_channels
            (channels (parse_json_content sample_now sample_json_loads content
                                          url c)) = 0) as Hnone by (by vm_compute).
  split; [reflexivity|]. split; [by vm_compute|]. split; [reflexivity|].
  split; [done|]. split; [done|].
  intros Heq. rewrite Heq in Hone. rewrite Hnone in Hone. discriminate.
Qed.

(** ** Identities and logos *)

Lemma playlist_id_from_name_and_source (line source_url added_date : string) :
  e_id (extinf_channel line source_url added_date) =
  generate_channel_id (e_name (extinf_channel line source_url added_date)) source_url.
Proof. reflexivity. Qed.

(** C6 fails on the JSON parser.  The playlist parser derives the id of a
    record from its name and the source URL; the JSON parser hands
    [generate_channel_id] the stream URL of the item instead, so that two
    records of one source with one name get different ids. *)
Theorem json_id_is_derived_from_stream_url :
  let source_url := "http://src.example/channels.json" in
  let items := [ JDict [("name", "News"); ("url", "http://a/1")];
                 JDict [("name", "News"); ("url", "http://a/2")] ] in
  List.map (fun gc => (c_name (snd gc), c_source (snd gc), c_id (snd gc)))
      (all_channels (channels
         (parse_json_content (fun _ => "2024-01-01T00:00:00+05:30")
                             (fun _ => Some (JList items)) "[...]" source_url
                             (new_collector true)))) =
    [ ("News", source_url, "413dd3ce"); ("News", source_url, "5a52474c") ] /\
  generate_channel_id "News" "http://a/1" = "413dd3ce" /\
  generate_channel_id "News" "http://a/2" = "5a52474c" /\
  generate_channel_id "News" source_url = "d472a737" /\
  (forall line added_date,
      e_id (extinf_channel line source_url added_date) =
      generate_channel_id (extinf_name line) source_url).
Proof. repeat split; by vm_compute. Qed.

Lemma search_attr_absent (key s : string) :
  PyStr.contains (key +:+ "=" +:+ String Re.quote EmptyString) s = false ->
  Re.search_attr key s = None.
Proof.
  induction s as [|c s IH]; cbn [PyStr.contains Re.search_attr].
  - intros [Hp _]%orb_false_iff. by rewrite Hp.
  - intros [Hp Hs]%orb_false_iff. rewrite Hp. by apply IH.
Qed.

(** A playlist line without a logo attribute gets the default logo. *)
Lemma playlist_logo_absent (line : string) :
  PyStr.contains ("tvg-logo=" +:+ String Re.quote EmptyString) line = false ->
  extinf_logo line = default_logo.
Proof. intros H. unfold extinf_logo. by rewrite (search_attr_absent "tvg-logo"). Qed.

(** A JSON item without the keys [img] and [logo] gets the default logo. *)
Lemma json_logo_absent (fields : list (string * string)) :
  dict_get "img" fields = None -> dict_get "logo" fields = None ->
  get_default "img" fields (get_default "logo" fields default_logo) = default_logo.
Proof. intros Himg Hlogo. unfold get_default. by rewrite Himg, Hlogo. Qed.

(** C7 fails on the JSON parser.  A playlist line whose logo attribute is
    empty gets the default logo, and so does a JSON item without a logo
    key; a JSON item whose logo is the empty string keeps the empty string,
    under the key [img] as under the key [logo]. *)
Theorem json_empty_logo_is_kept :
  let logo_of items :=
    List.map (fun gc => c_logo (snd gc))
      (all_channels (channels
         (parse_json_content (fun _ => "2024-01-01T00:00:00+05:30")
                             (fun _ => Some (JList items)) "[...]"
                             "http://src.example/channels.json"
                             (new_collector true)))) in
  logo_of [JDict [("name", "News"); ("url", "http://a/1"); ("img", EmptyString)]]
    = [EmptyString] /\
  logo_of [JDict [("name", "News"); ("url", "http://a/1"); ("logo", EmptyString)]]
    = [EmptyString] /\
  logo_of [JDict [("name", "News"); ("url", "http://a/1")]] = [default_logo] /\
  extinf_logo ("#EXTINF:-1 tvg-logo=" +:+ String Re.quote (String Re.quote ",News"))
    = default_logo.
Proof. by vm_compute. Qed.

(** ** The exit status *)

Section Main.

Variable now : nat -> string.
Variable session_head : string -> Response.
Variable session_get : string -> Response.
Variable as_completed : list (string * Channel) -> list (string * Channel).
Variable fetch_content : string -> option string * list string.
Variable json_loads : string -> option JsonData.
Variable extract_stream_urls_from_html : string -> string -> list string.

#[local] Abbreviation exit_status :=
  (main now session_head session_get as_completed fetch_content json_loads
        extract_stream_urls_from_html).

(** A source without content is skipped. *)
Lemma process_source_without_content (st : Collector * gset string) (url : string) :
  fst (fetch_content url) = None \/ fst (fetch_content url) = Some EmptyString ->
  process_source now fetch_content json_loads extract_stream_urls_from_html st url = st.
Proof.
  destruct st as [c urls]. unfold process_source.
  destruct (fetch_content url) as [[content|] lines]; simpl; [|done].
  by intros [H | [= ->]].
Qed.

(** When no source yields content, no channel is collected and the exit
    status is 1. *)
Lemma main_without_content (skip_link_check : option string) :
  (forall url, fst (fetch_content url) = None \/
               fst (fetch_content url) = Some EmptyString) ->
  exit_status skip_link_check = 1%Z.
Proof.
  intros Hfetch.
  assert (forall sources st,
            fold_left (process_source now fetch_content json_loads
                         extract_stream_urls_from_html) sources st = st) as Hfold.
  { induction sources as [|u us IH]; intros st; [done|].
    cbn [fold_left]. rewrite process_source_without_content by done. apply IH. }
  unfold main, main_store, process_sources, ingest.
  rewrite Hfold. by rewrite elements_empty.
Qed.

End Main.

(** ** The theorems at sample inputs *)

Lemma fallback_chain_at_sample :
  scheme_only_in_front "http://tv.example/1.m3u8" = true /\
  fallback_chain sample_head sample_get "http://tv.example/1.m3u8"
    [Head "http://tv.example/1.m3u8"; Head "https://tv.example/1.m3u8"]
    (Returned true "https://tv.example/1.m3u8").
Proof.
  split; [reflexivity|].
  apply (proj1 (check_link_active_fallback_chain
                  sample_head sample_get "http://tv.example/1.m3u8") eq_refl).
  split; [reflexivity | discriminate].
Defined.

Lemma validation_at_sample :
  (forall l : list (string * Channel), rev l ≡ₚ l) /\
  cache_consistent sample_head sample_get (url_status_cache sample_collector) /\
  check_links sample_collector = true /\
  all_channels (channels (filter_active_channels sample_head sample_get (@rev _)
                                                 sample_collector)) ≡ₚ
    [("General",
      {| c_id := generate_channel_id "One" sample_source; c_name := "One";
         c_logo := default_logo; c_group := "General"; c_tvg_id := EmptyString;
         c_source := sample_source; c_added_date := sample_now 0;
         c_url := "https://tv.example/1.m3u8"; c_status := Some "active" |})].
Proof.
  assert (forall l : list (string * Channel), rev l ≡ₚ l) as Hperm.
  { intros l. symmetry. apply Permutation_rev. }
  assert (cache_consistent sample_head sample_get
            (url_status_cache sample_collector)) as Hcache.
  { intros url a u H. simpl in H. by rewrite lookup_empty in H. }
  split; [exact Hperm|]. split; [exact Hcache|]. split; [reflexivity|].
  etransitivity.
  - exact (proj1 (proj1 (validation_keeps_exactly_the_active
                           sample_head sample_get (@rev _) Hperm)
                        sample_collector Hcache eq_refl)).
  - vm_compute. reflexivity.
Defined.


Lemma extinf_without_url_at_sample :
  let st := m3u_start (new_collector true) in
  let m1 := "#EXTINF:-1,First" in
  let mid := ["#EXTVLCOPT:http-user-agent=x"; EmptyString] in
  let m2 := "#EXTINF:-1,Second" in
  PyStr.startswith (PyStr.strip m1) "#EXTINF:" = true /\
  Forall (fun l => PyStr.startswith_any (PyStr.strip l) url_schemes = false) mid /\
  PyStr.startswith (PyStr.strip m2) "#EXTINF:" = true /\
  channels (self (m3u_loop sample_now sample_source (m1 :: mid ++ [m2]) st)) =
    channels (self st).
Proof.
  intros st m1 mid m2.
  assert (Forall (fun l => PyStr.startswith_any (PyStr.strip l) url_schemes = false)
                 mid) as Hmid.
  { repeat constructor. }
  split; [reflexivity|]. split; [exact Hmid|]. split; [reflexivity|].
  exact (proj1 (extinf_without_url_is_discarded
                  sample_now sample_source st m1 mid m2 eq_refl Hmid eq_refl)).
Defined.

Lemma url_line_without_pending_at_sample :
  let st := m3u_start (new_collector true) in
  let u := "http://tv.example/1.m3u8" in
  current_channel st = None /\
  PyStr.startswith_any (PyStr.strip u) url_schemes = true /\
  m3u_line sample_now sample_source st u = st.
Proof.
  intros st u. split; [reflexivity|]. split; [reflexivity|].
  exact (proj1 (proj2 (proj2 (url_line_without_pending_is_ignored
                                sample_now sample_source)))
               st u eq_refl eq_refl).
Defined.

Lemma route_at_sample :
  let url := "https://example.com/index.HTML" in
  let c := new_collector true in
  sample_fetch url =
    (Some "#EXTINF:-1,One", ["#EXTINF:-1,One"; "http://tv.example/1.m3u8"]) /\
  "#EXTINF:-1,One" <> EmptyString /\
  process_source sample_now sample_fetch sample_json_loads sample_extract
                 (c, ∅) url =
    (c, ∅ ∪ list_to_set (sample_extract "#EXTINF:-1,One" url)).
Proof.
  intros url c. split; [reflexivity|]. split; [discriminate|].
  apply (proj1 (route_is_syntactic
                  sample_now sample_fetch sample_json_loads sample_extract
                  url "#EXTINF:-1,One"
                  ["#EXTINF:-1,One"; "http://tv.example/1.m3u8"] c ∅
                  eq_refl ltac:(discriminate))).
  exists "https://example.com/index.". exists EmptyString. reflexivity.
Defined.

(** * Further properties *)

(** ** Channel identities *)

Lemma le_bytes_range (k : nat) (n : Z) :
  Forall (fun b => (0 <= b < 256)%Z) (MD5.le_bytes k n).
Proof.
  revert n; induction k as [|k IH]; intros n; simpl; constructor; [|apply IH].
  apply Z.mod_pos_bound. lia.
Qed.

Lemma hex_digit_is_hex (n : Z) :
  (0 <= n < 16)%Z -> is_hex_digit (MD5.hex_digit n) = true.
Proof.
  intros H. rewrite <- (Z2Nat.id n) by lia.
  assert (Z.to_nat n < 16)%nat as Hk by lia. revert Hk.
  generalize (Z.to_nat n) as k. intros k Hk.
  do 16 (destruct k as [|k]; [reflexivity|]). lia.
Qed.

Lemma hex_of_bytes (bs : list Z) :
  Forall (fun b => (0 <= b < 256)%Z) bs ->
  String.length (MD5.hex bs) = 2 * List.length bs /\
  all_chars is_hex_digit (MD5.hex bs) = true.
Proof.
  induction 1 as [|b bs Hb _ [IHl IHc]]; [done|].
  cbn [MD5.hex String.length all_chars List.length]. split; [lia|].
  rewrite !hex_digit_is_hex, IHc; [done | |].
  - apply Z.mod_pos_bound. lia.
  - split; [apply Z.div_pos; lia | apply Z.div_lt_upper_bound; lia].
Qed.

Lemma digest_bytes (msg : list Z) :
  List.length (MD5.digest msg) = 16 /\
  Forall (fun b => (0 <= b < 256)%Z) (MD5.digest msg).
Proof.
  unfold MD5.digest. destruct (fold_left _ _ _) as [[[a b] c] d].
  split; [reflexivity|].
  rewrite !Forall_app. repeat split; apply le_bytes_range.
Qed.

Lemma take_length (n : nat) (s : string) :
  n <= String.length s -> String.length (PyStr.take n s) = n.
Proof.
  revert s; induction n as [|n IH]; intros [|c s]; simpl; try lia.
  intros H. rewrite IH; lia.
Qed.

Lemma take_all_chars (P : ascii -> bool) (n : nat) (s : string) :
  all_chars P s = true -> all_chars P (PyStr.take n s) = true.
Proof.
  revert s; induction n as [|n IH]; intros [|c s]; simpl; try done.
  intros [Hc Hs]%andb_true_iff. rewrite Hc. by apply IH.
Qed.

(** X1. The id of a channel is always eight characters, each a digit or a
    letter from [a] to [f], whatever the name and the URL. *)
Theorem generate_channel_id_is_eight_hex_digits (name url : string) :
  String.length (generate_channel_id name url) = 8 /\
  all_chars is_hex_digit (generate_channel_id name url) = true.
Proof.
  unfold generate_channel_id, MD5.hexdigest.
  destruct (digest_bytes (MD5.encode_utf8 (name +:+ "_" +:+ url))) as [Hlen Hrange].
  destruct (hex_of_bytes _ Hrange) as [Hhex Hchars].
  split; [apply take_length; lia | by apply take_all_chars].
Qed.

(** ** Names *)

Lemma collapse_word_idempotent (s : string) :
  collapse_word (collapse_word s) = collapse_word s /\
  collapse_word (collapse_gap s) = collapse_gap s.
Proof.
  induction s as [|c s [IHw IHg]]; [done|].
  cbn [collapse_word collapse_gap].
  destruct (PyStr.isspace c) eqn:Hc; [done|]. split.
  - cbn [collapse_word]. by rewrite Hc, IHw.
  - cbn [collapse_word collapse_gap].
    replace (PyStr.isspace " ") with true by reflexivity.
    by rewrite Hc, IHw.
Qed.

Lemma collapse_start_idempotent (s : string) :
  collapse_start (collapse_start s) = collapse_start s.
Proof.
  induction s as [|c s IH]; [done|]. cbn [collapse_start].
  destruct (PyStr.isspace c) eqn:Hc; [done|].
  cbn [collapse_start]. rewrite Hc. by rewrite (proj1 (collapse_word_idempotent s)).
Qed.

Lemma collapse_collapse_start (s : string) : collapse s = collapse_start s.
Proof. unfold collapse, PyStr.split. apply join_split_from. Qed.

Lemma collapse_idempotent (s : string) : collapse (collapse s) = collapse s.
Proof. rewrite !collapse_collapse_start. apply collapse_start_idempotent. Qed.

(** X2. The name that the playlist parser gives a channel is normalised,
    whatever the line: collapsing its whitespace again changes nothing. *)
Theorem extinf_name_is_collapsed (line : string) :
  collapse (extinf_name line) = extinf_name line.
Proof.
  unfold extinf_name. destruct (Re.search_name line) as [g|].
  - rewrite strip_sub_ws_strip. apply collapse_idempotent.
  - reflexivity.
Qed.

(** ** Counting and the seen URLs *)

Lemma total_channels_append_to (g : string) (ch : Channel) (store : Store) :
  total_channels (append_to g ch store) = S (total_channels store).
Proof.
  rewrite !total_channels_length, all_channels_append_to, length_app. simpl. lia.
Qed.

Lemma m3u_line_counts (now : nat -> string) (source_url : string)
      (st : M3uLoop) (raw : string) :
  total_channels (channels (self (m3u_line now source_url st raw)))
    + channel_count st =
  total_channels (channels (self st))
    + channel_count (m3u_line now source_url st raw).
Proof.
  unfold m3u_line. repeat case_match; simpl; rewrite ?total_channels_append_to; lia.
Qed.

Lemma json_item_counts (now : nat -> string) (source_url : string)
      (st : Collector * nat) (item : JsonItem) :
  total_channels (channels (fst (json_item now source_url st item))) + snd st =
  total_channels (channels (fst st)) + snd (json_item now source_url st item).
Proof.
  destruct st as [c n]. unfold json_item.
  repeat case_match; simpl; rewrite ?total_channels_append_to; lia.
Qed.

(** X3. The count that a parser reports is the number of records it has
    put into the store: after [parse_m3u_content], and after the loop of
    [parse_json_content], the store holds [channel_count] records more
    than before. *)
Theorem channel_count_is_the_growth_of_the_store
        (now : nat -> string) (source_url : string) (c : Collector) :
  (forall lines,
      total_channels (channels (parse_m3u_content now lines source_url c)) =
      total_channels (channels c)
        + channel_count (m3u_loop now source_url lines (m3u_start c))) /\
  (forall items,
      total_channels
        (channels (fst (fold_left (json_item now source_url) items (c, 0)))) =
      total_channels (channels c)
        + snd (fold_left (json_item now source_url) items (c, 0))).
Proof.
  split.
  - intros lines. unfold parse_m3u_content.
    assert (forall st,
              total_channels (channels (self (m3u_loop now source_url lines st)))
                + channel_count st =
              total_channels (channels (self st))
                + channel_count (m3u_loop now source_url lines st)) as H.
    { induction lines as [|l lines IH]; intros st; [done|].
      cbn [m3u_loop fold_left]. specialize (IH (m3u_line now source_url st l)).
      unfold m3u_loop in IH.
      pose proof (m3u_line_counts now source_url st l). lia. }
    specialize (H (m3u_start c)). simpl in H. lia.
  - intros items.
    assert (forall st,
              total_channels
                (channels (fst (fold_left (json_item now source_url) items st)))
                + snd st =
              total_channels (channels (fst st))
                + snd (fold_left (json_item now source_url) items st)) as H.
    { induction items as [|i items IH]; intros st; [done|].
      cbn [fold_left]. specialize (IH (json_item now source_url st i)).
      pose proof (json_item_counts now source_url st i). lia. }
    specialize (H (c, 0)). simpl in H. lia.
Qed.

Lemma step_seen_grows (seen : gset string) (c c' : Collector) :
  parser_step c c' -> seen ⊆ seen_urls c -> seen ⊆ seen_urls c'.
Proof.
  intros [[Hch Hseen | ch Hst Hne Hfresh Hch Hseen] _] Hsub; rewrite Hseen;
    [done|]. by apply union_subseteq_r'.
Qed.

(** X4. The seen URLs never shrink while sources are parsed, and after the
    fetch-and-parse phase they hold the URL of every record of the store:
    a URL once admitted is refused from then on. *)
Theorem seen_urls_grow_and_cover_the_store
        (now : nat -> string) (json_loads : string -> option JsonData) :
  (forall calls c,
      seen_urls c ⊆ seen_urls (fold_left (run_parser now json_loads) calls c)) /\
  (forall fetch_content extract_stream_urls_from_html source_urls c url,
      url ∈ store_urls (channels
              (ingest now fetch_content json_loads extract_stream_urls_from_html
                      source_urls c)) ->
      url ∈ seen_urls
              (ingest now fetch_content json_loads extract_stream_urls_from_html
                      source_urls c)) /\
  (forall source_url c lines url,
      url ∈ seen_urls c ->
      url ∉ store_urls (channels c) ->
      url ∉ store_urls (channels (parse_m3u_content now lines source_url c))).
Proof.
  split; [|split].
  - intros calls c.
    by apply (run_parsers_keep now json_loads (fun c' => seen_urls c ⊆ seen_urls c')
                               (step_seen_grows (seen_urls c))).
  - intros fetch_content extract source_urls c url Hin.
    pose proof (ingest_keeps now fetch_content json_loads extract
                             dedup_invariant step_dedup source_urls c
                             (dedup_invariant_empty (clear c) eq_refl)) as [_ H].
    by apply H.
  - intros source_url c lines url Hseen Hnot.
    apply (parse_m3u_content_keeps now
             (fun c' => url ∈ seen_urls c' /\ url ∉ store_urls (channels c')));
      [|done].
    clear. intros c c' [[Hch Hs | ch Hst Hne Hfresh Hch Hs] _] [Hseen Hnot];
      rewrite Hch, Hs; [done|]. split.
    + apply elem_of_union. by right.
    + rewrite store_urls_append_to, elem_of_app, list_elem_of_singleton.
      intros [H | ->]; done.
Qed.

(** ** What the parsers skip *)

Lemma step_irrelevant (now : nat -> string) (source_url : string)
      (st : M3uLoop) (raw : string) :
  relevant_line raw = false -> m3u_line now source_url st raw = st.
Proof.
  intros [He Hu]%orb_false_iff. by apply step_other.
Qed.

(** X5. [parse_m3u_content] looks at [#EXTINF] lines and URL lines only:
    blank lines, comments and other directives can be taken out of the
    input, wherever they stand, without any change to the result. *)
Theorem other_lines_do_not_matter
        (now : nat -> string) (source_url : string) (lines : list string) :
  (forall st,
      m3u_loop now source_url (List.filter relevant_line lines) st =
      m3u_loop now source_url lines st) /\
  (forall c,
      parse_m3u_content now (List.filter relevant_line lines) source_url c =
      parse_m3u_content now lines source_url c).
Proof.
  assert (forall st,
            m3u_loop now source_url (List.filter relevant_line lines) st =
            m3u_loop now source_url lines st) as H.
  { induction lines as [|l lines IH]; intros st; [done|].
    cbn [List.filter]. destruct (relevant_line l) eqn:Hl.
    - cbn [m3u_loop fold_left]. apply IH.
    - cbn [m3u_loop fold_left]. rewrite step_irrelevant by done. apply IH. }
  split; [done|]. intros c. unfold parse_m3u_content. by rewrite H.
Qed.

Lemma json_item_unusable (now : nat -> string) (source_url : string)
      (st : Collector * nat) (item : JsonItem) :
  usable_item item = false -> json_item now source_url st item = st.
Proof.
  destruct st as [c n]. unfold usable_item, json_item.
  destruct item as [fields|]; [|done].
  destruct (dict_get "url" fields) as [url|]; [|done].
  by intros ->%negb_false_iff.
Qed.

(** X6. [parse_json_content] leaves the collector as it is when the content
    does not decode or does not decode to a list, and within a list it
    looks only at the dicts that have a non-empty [url]: two contents whose
    lists agree on those give the same result. *)
Theorem unusable_json_is_skipped
        (now : nat -> string) (json_loads : string -> option JsonData)
        (source_url : string) (c : Collector) :
  (forall content,
      json_loads content = None \/ json_loads content = Some JNotList ->
      parse_json_content now json_loads content source_url c = c) /\
  (forall content content' items items',
      json_loads content = Some (JList items) ->
      json_loads content' = Some (JList items') ->
      List.filter usable_item items = List.filter usable_item items' ->
      parse_json_content now json_loads content source_url c =
      parse_json_content now json_loads content' source_url c).
Proof.
  split.
  - intros content [H | H]; unfold parse_json_content; by rewrite H.
  - assert (forall items st,
              fold_left (json_item now source_url) (List.filter usable_item items) st =
              fold_left (json_item now source_url) items st) as Hskip.
    { induction items as [|i items IH]; intros st; [done|].
      cbn [List.filter]. destruct (usable_item i) eqn:Hi; cbn [fold_left].
      - apply IH.
      - rewrite json_item_unusable by done. apply IH. }
    intros content content' items items' H H' Heq. unfold parse_json_content.
    rewrite H, H'. by rewrite <- (Hskip items), <- (Hskip items'), Heq.
Qed.

(** ** Parsing a source again *)

Section Again.

Variable now : nat -> string.
Variables source_url source_url' : string.

Lemma loop_seen_grows (lines : list string) (st : M3uLoop) :
  seen_urls (self st) ⊆ seen_urls (self (m3u_loop now source_url lines st)).
Proof.
  by apply (m3u_loop_keeps now (fun c' => seen_urls (self st) ⊆ seen_urls c')
                           (step_seen_grows (seen_urls (self st)))).
Qed.

Lemma step_url_sees (st : M3uLoop) (e : Extinf) (raw : string) :
  current_channel st = Some e ->
  PyStr.startswith_any (PyStr.strip raw) url_schemes = true ->
  PyStr.strip raw ∈ seen_urls (self (m3u_line now source_url st raw)).
Proof.
  intros He Hu.
  destruct (decide (PyStr.strip raw ∈ seen_urls (self st))) as [Hseen|Hfresh].
  - by rewrite (step_url_seen _ _ st e).
  - rewrite (step_url_fresh _ _ st e) by done. simpl.
    apply elem_of_union. left. by apply elem_of_singleton.
Qed.

(** The second pass over lines whose first pass ends within the seen URLs
    of the second admits nothing. *)
Lemma second_pass_admits_nothing (lines : list string) (st st' : M3uLoop) :
  (current_channel st = None <-> current_channel st' = None) ->
  seen_urls (self (m3u_loop now source_url lines st)) ⊆ seen_urls (self st') ->
  channels (self (m3u_loop now source_url' lines st')) = channels (self st') /\
  seen_urls (self (m3u_loop now source_url' lines st')) = seen_urls (self st').
Proof.
  revert st st'. induction lines as [|l lines IH]; intros st st' Hpending Hsub;
    [done|].
  cbn [m3u_loop fold_left] in *.
  assert ((current_channel (m3u_line now source_url st l) = None <->
           current_channel (m3u_line now source_url' st' l) = None) /\
          channels (self (m3u_line now source_url' st' l)) = channels (self st') /\
          seen_urls (self (m3u_line now source_url' st' l)) = seen_urls (self st'))
    as (Hpending' & Hch & Hseen).
  { destruct (PyStr.startswith (PyStr.strip l) "#EXTINF:") eqn:He.
    { rewrite !step_extinf by done. done. }
    destruct (PyStr.startswith_any (PyStr.strip l) url_schemes) eqn:Hu.
    2: { rewrite !step_other by done. by split. }
    destruct (current_channel st) as [e|] eqn:Hcur.
    2: { destruct (current_channel st') as [e'|] eqn:Hcur'.
         { discriminate (proj1 Hpending eq_refl). }
         rewrite !step_url_no_pending by done. rewrite Hcur, Hcur'. by split. }
    destruct (current_channel st') as [e'|] eqn:Hcur'.
    2: { discriminate (proj2 Hpending eq_refl). }
    assert (PyStr.strip l ∈ seen_urls (self st')) as Hin.
    { apply Hsub. apply (loop_seen_grows lines). by apply (step_url_sees st e). }
    rewrite (step_url_seen _ _ st' e') by done. simpl.
    split; [|done]. split; [done|]. intros _. by apply step_url_clears_pending. }
  fold (m3u_loop now source_url lines (m3u_line now source_url st l)) in Hsub.
  fold (m3u_loop now source_url' lines (m3u_line now source_url' st' l)).
  destruct (IH _ _ Hpending' ltac:(by rewrite Hseen)) as [IHch IHseen].
  by rewrite IHch, IHseen.
Qed.

End Again.

(** X7. A playlist that is parsed a second time, from the same source or
    from another one, adds nothing: the store and the seen URLs stay as
    they are, also when other sources have been parsed in between. *)
Theorem parsing_again_adds_nothing
        (now : nat -> string) (lines : list string)
        (source_url source_url' : string) (c c' : Collector) :
  seen_urls (parse_m3u_content now lines source_url c) ⊆ seen_urls c' ->
  channels (parse_m3u_content now lines source_url' c') = channels c' /\
  seen_urls (parse_m3u_content now lines source_url' c') = seen_urls c'.
Proof.
  intros Hsub. unfold parse_m3u_content.
  by apply (second_pass_admits_nothing now source_url source_url' lines
                                       (m3u_start c) (m3u_start c')).
Qed.

(** ** The cache of the validation stage *)

(** X8. An answer that [check_link_active] has returned for a URL is
    returned again by every later call for that URL, with the cache left as
    it is and whatever the network answers by then; a probe that raised
    has not touched the cache. *)
Theorem returned_answers_are_cached
        (session_head session_get session_head' session_get' : string -> Response)
        (url : string) (cache : gmap string (bool * string)) :
  let first := check_link_active session_head session_get url cache in
  (forall is_active updated_url,
      fst first = Returned is_active updated_url ->
      check_link_active session_head' session_get' url (snd first) =
      (Returned is_active updated_url, snd first)) /\
  (fst first = Raised -> snd first = cache).
Proof.
  unfold check_link_active.
  destruct (cache !! url) as [[a u]|] eqn:Hlook; simpl.
  - split; [|done]. intros a' u' [= <- <-]. by rewrite Hlook.
  - destruct (snd (probe session_head session_get url)) as [a u|]; simpl.
    + split; [|done]. intros a' u' [= <- <-]. by rewrite lookup_insert_eq.
    + by split.
Qed.

(** ** The shape of the store *)

Lemma append_to_keys (g : string) (ch : Channel) (store : Store) :
  List.map fst (append_to g ch store) = List.map fst store \/
  ((g ∉ List.map fst store) /\
   List.map fst (append_to g ch store) = List.map fst store ++ [g]).
Proof.
  induction store as [|[k chans] rest IH].
  - right. split; [apply not_elem_of_nil | done].
  - cbn [append_to]. destruct (String.eqb k g) eqn:Hk; [by left|].
    apply String.eqb_neq in Hk. simpl. destruct IH as [-> | [Hnot ->]].
    + by left.
    + right. split; [|done]. rewrite not_elem_of_cons. split; [congruence | done].
Qed.

Lemma append_to_wf (g : string) (ch : Channel) (store : Store) :
  c_group ch = g -> store_wf store -> store_wf (append_to g ch store).
Proof.
  intros Hg [Hnd Hall]. split.
  - destruct (append_to_keys g ch store) as [-> | [Hnot ->]]; [done|].
    apply NoDup_app. split; [done|]. split; [|apply NoDup_singleton].
    intros k Hk ->%list_elem_of_singleton. done.
  - clear Hnd. induction Hall as [|[k chans] rest [Hne Hgroup] Hrest IH].
    + constructor; [|constructor]. simpl. split; [done|].
      constructor; [done | constructor].
    + cbn [append_to]. destruct (String.eqb k g) eqn:Hk.
      * apply String.eqb_eq in Hk as ->. constructor; [|done]. simpl. split.
        -- by destruct chans.
        -- apply Forall_app. split; [done|]. constructor; [done | constructor].
      * by constructor.
Qed.

Lemma step_store_wf (c c' : Collector) :
  parser_step c c' -> store_wf (channels c) -> store_wf (channels c').
Proof.
  intros [[Hch Hseen | ch Hst Hne Hfresh Hch Hseen] _] Hwf; rewrite Hch;
    [done|]. by apply append_to_wf.
Qed.

Lemma all_channels_under_their_group (store : Store) :
  store_wf store ->
  Forall (fun gc => c_group (snd gc) = fst gc) (all_channels store).
Proof.
  intros [_ Hall]. unfold all_channels.
  induction Hall as [|[k chans] rest [_ Hgroup] _ IH]; [constructor|].
  simpl. apply Forall_app. split; [|done].
  apply Forall_fmap. by apply (Forall_impl _ _ _ Hgroup).
Qed.

Lemma collect_results_wf (session_head session_get : string -> Response)
      (l : list (string * Channel)) (cache : gmap string (bool * string))
      (active : Store) :
  Forall (fun gc => c_group (snd gc) = fst gc) l ->
  store_wf active ->
  store_wf (snd (fold_left (collect_result session_head session_get) l
                           (cache, active))).
Proof.
  intros Hl. revert cache active.
  induction Hl as [|[g ch] l Hg _ IH]; intros cache active Hwf; [done|].
  cbn [fold_left]. unfold collect_result at 2.
  destruct (check_link_active session_head session_get (c_url ch) cache)
    as [[[|] u|] cache']; apply IH; try done.
  by apply append_to_wf.
Qed.

Lemma groups_are_not_empty (store : Store) :
  store_wf store -> List.length store <= total_channels store.
Proof.
  intros [_ Hall]. unfold total_channels.
  induction Hall as [|[k chans] rest [Hne _] _ IH]; [done|].
  simpl in *. destruct chans; [done|]. simpl. lia.
Qed.

Lemma process_sources_store_wf
      (now : nat -> string) (session_head session_get : string -> Response)
      (as_completed : list (string * Channel) -> list (string * Channel))
      (fetch_content : string -> option string * list string)
      (json_loads : string -> option JsonData)
      (extract_stream_urls_from_html : string -> string -> list string)
      (source_urls : list string) (c : Collector) :
  (forall l, as_completed l ≡ₚ l) ->
  store_wf (channels (process_sources now session_head session_get as_completed
                                      fetch_content json_loads
                                      extract_stream_urls_from_html source_urls c)).
Proof.
  intros Hperm.
  pose proof (ingest_keeps now fetch_content json_loads
                extract_stream_urls_from_html
                (fun c' => store_wf (channels c')) step_store_wf source_urls c)
    as Hin.
  assert (store_wf []) as Hnil by (split; [apply NoDup_nil_2 | constructor]).
  specialize (Hin Hnil).
  set (ingested := ingest now fetch_content json_loads
                          extract_stream_urls_from_html source_urls c) in *.
  assert (process_sources now session_head session_get as_completed fetch_content
                          json_loads extract_stream_urls_from_html source_urls c
          = ingested \/
          process_sources now session_head session_get as_completed fetch_content
                          json_loads extract_stream_urls_from_html source_urls c
          = filter_active_channels session_head session_get as_completed ingested)
    as [-> | ->].
  { unfold process_sources. fold ingested.
    cbv zeta. destruct (channels ingested) eqn:E; [left | right]; done. }
  { done. }
  unfold filter_active_channels. destruct (check_links ingested); simpl; [|done].
  pose proof (collect_results_wf session_head session_get
                (as_completed (all_channels (channels ingested)))
                (url_status_cache ingested) []) as Hc.
  destruct (fold_left _ _ _) as [cache active]. simpl in *. apply Hc; [|done].
  rewrite Hperm. by apply all_channels_under_their_group.
Qed.

(** X9. After [process_sources] the store is a dict of non-empty lists: the
    group labels are distinct, no group is empty and every record sits
    under its own group label.  So there are at most as many groups as
    channels, and the store is empty exactly when it holds no channel. *)
Theorem store_is_well_formed
        (now : nat -> string) (session_head session_get : string -> Response)
        (as_completed : list (string * Channel) -> list (string * Channel))
        (fetch_content : string -> option string * list string)
        (json_loads : string -> option JsonData)
        (extract_stream_urls_from_html : string -> string -> list string)
        (source_urls : list string) (c : Collector) :
  (forall l, as_completed l ≡ₚ l) ->
  let store :=
    channels (process_sources now session_head session_get as_completed
                              fetch_content json_loads
                              extract_stream_urls_from_html source_urls c) in
  store_wf store /\
  List.length store <= total_channels store /\
  (store = [] <-> total_channels store = 0).
Proof.
  intros Hperm store.
  assert (store_wf store) as Hwf by (by apply process_sources_store_wf).
  pose proof (groups_are_not_empty store Hwf) as Hle.
  split; [done|]. split; [done|]. split.
  - by intros ->.
  - intros H0. destruct store; [done|]. simpl in Hle. lia.
Qed.

(** ** [fetch_content] *)

Lemma rstrip_idempotent (s : string) : PyStr.rstrip (PyStr.rstrip s) = PyStr.rstrip s.
Proof.
  induction s as [|c s IH]; [done|]. cbn [PyStr.rstrip].
  destruct (PyStr.isspace c && PyStr.is_empty (PyStr.rstrip s)) eqn:H; [done|].
  cbn [PyStr.rstrip]. by rewrite IH, H.
Qed.

Lemma lstrip_starts_black_id (s : string) : starts_black s -> PyStr.lstrip s = s.
Proof. destruct s as [|c s]; [done|]. simpl. by intros ->. Qed.

Lemma strip_idempotent (s : string) : PyStr.strip (PyStr.strip s) = PyStr.strip s.
Proof.
  unfold PyStr.strip.
  rewrite (lstrip_starts_black_id (PyStr.rstrip (PyStr.lstrip s)))
    by apply rstrip_starts_black, lstrip_starts_black.
  apply rstrip_idempotent.
Qed.

Section Fetch.

Variable session_get : string -> nat -> HttpAnswer.
Variable decode : string -> string.

#[local] Abbreviation fetched := (fetch_content session_get decode).
#[local] Abbreviation attempts := (fetch_attempts session_get decode).
#[local] Abbreviation read := (read_response decode).

Lemma read_response_shape (content_type : option string) (text : string)
      (iter_lines : list string) :
  snd (read content_type text iter_lines) = [fst (read content_type text iter_lines)] \/
  (fst (read content_type text iter_lines) =
     PyStr.join (String Re.newline EmptyString)
                (snd (read content_type text iter_lines)) /\
   Forall (fun line => PyStr.strip line = line)
          (snd (read content_type text iter_lines))).
Proof.
  unfold read_response. destruct (PyStr.contains "json" _); [by left|].
  right. split; [done|]. simpl. apply Forall_fmap, Forall_forall.
  intros line _. apply strip_idempotent.
Qed.

Lemma fetch_attempts_shape (url : string) (attempt remaining : nat) :
  attempts url attempt remaining = (None, []) \/
  exists content lines,
    attempts url attempt remaining = (Some content, lines) /\
    lines <> [] /\
    (lines = [content] \/
     (content = PyStr.join (String Re.newline EmptyString) lines /\
      Forall (fun line => PyStr.strip line = line) lines)).
Proof.
  revert attempt. induction remaining as [|r IH]; intros attempt; [by left|].
  cbn [fetch_attempts].
  destruct (session_get url attempt) as [|status content_type text iter_lines];
    [apply IH|].
  destruct (raises_for_status status); [apply IH|].
  pose proof (read_response_shape content_type text iter_lines) as Hshape.
  destruct (read content_type text iter_lines) as [content [|l lines]];
    [apply IH|].
  right. exists content, (l :: lines). by repeat split.
Qed.

(** X10. [fetch_content] returns either no content and no lines, or a
    content with at least one line.  The lines are then the content itself
    as one line, as for a JSON response, or lines without leading and
    trailing whitespace of which the content is the join by line breaks. *)
Theorem fetch_content_returns_content_with_lines (url : string) :
  fetched url = (None, []) \/
  exists content lines,
    fetched url = (Some content, lines) /\
    lines <> [] /\
    (lines = [content] \/
     (content = PyStr.join (String Re.newline EmptyString) lines /\
      Forall (fun line => PyStr.strip line = line) lines)).
Proof. apply fetch_attempts_shape. Qed.

Lemma fetch_attempts_none (url : string) (attempt remaining : nat) :
  fst (attempts url attempt remaining) = None <->
  forall n, attempt <= n < attempt + remaining ->
            attempt_fails decode (session_get url n) = true.
Proof.
  revert attempt. induction remaining as [|r IH]; intros attempt.
  - split; [intros _ n; lia | done].
  - assert ((attempt_fails decode (session_get url attempt) = true /\
             forall n, S attempt <= n < S attempt + r ->
                       attempt_fails decode (session_get url n) = true) <->
            forall n, attempt <= n < attempt + S r ->
                      attempt_fails decode (session_get url n) = true) as <-.
    { split.
      - intros [H0 Hn] n Hlt. destruct (decide (n = attempt)) as [->|]; [done|].
        apply Hn. lia.
      - intros H. split; [apply H; lia | intros n Hn; apply H; lia]. }
    rewrite <- IH. cbn [fetch_attempts]. unfold attempt_fails.
    destruct (session_get url attempt) as [|status content_type text iter_lines];
      [tauto|].
    destruct (raises_for_status status); simpl; [tauto|].
    destruct (read content_type text iter_lines) as [content [|l lines]]; simpl;
      [tauto|].
    split; [done | intros [? _]; done].
Qed.

End Fetch.

Lemma fetch_attempts_agree (session_get session_get' : string -> nat -> HttpAnswer)
      (decode : string -> string) (url : string) (attempt remaining : nat) :
  (forall n, attempt <= n < attempt + remaining ->
             session_get url n = session_get' url n) ->
  fetch_attempts session_get decode url attempt remaining =
  fetch_attempts session_get' decode url attempt remaining.
Proof.
  revert attempt. induction remaining as [|r IH]; intros attempt Hagree; [done|].
  cbn [fetch_attempts]. rewrite <- (Hagree attempt) by lia.
  rewrite (IH (S attempt)) by (intros n Hn; apply Hagree; lia). done.
Qed.

Lemma fetch_content_none (session_get : string -> nat -> HttpAnswer)
      (decode : string -> string) (url : string) :
  fetch_content session_get decode url = (None, []) <->
  forall n, n < 3 -> attempt_fails decode (session_get url n) = true.
Proof.
  pose proof (fetch_attempts_none session_get decode url 0 max_retries) as Hnone.
  pose proof (fetch_attempts_shape session_get decode url 0 max_retries) as Hshape.
  unfold fetch_content. split.
  - intros H n Hn. apply Hnone; [by rewrite H | unfold max_retries; lia].
  - intros H. destruct Hshape as [Hs | (content & lines & Hs & _)]; [done|].
    rewrite Hs in Hnone. simpl in Hnone.
    assert (Some content = None) as Habs; [|done].
    apply Hnone. intros n Hn. apply H. unfold max_retries in Hn. lia.
Qed.



(** ** [is_valid_stream_url] *)

Lemma lower_empty (s : string) : PyStr.is_empty (PyStr.lower s) = PyStr.is_empty s.
Proof. by destruct s. Qed.

Lemma is_empty_true (s : string) : PyStr.is_empty s = true <-> s = EmptyString.
Proof. by destruct s. Qed.

Lemma at_end_app (s literal : string) :
  at_end s literal = true <->
  exists pre, s = pre +:+ literal \/
              s = pre +:+ literal +:+ String Re.newline EmptyString.
Proof.
  unfold at_end. rewrite orb_true_iff, !endswith_app. split.
  - intros [[pre H] | [pre H]]; exists pre; [by left | by right].
  - intros [pre [H | H]]; [left | right]; by exists pre.
Qed.

(** X13. [is_valid_stream_url] accepts a URL exactly when it is not empty,
    its lower-casing has none of the excluded substrings in it, and its
    lower-casing ends in one of the stream extensions, at the very end or
    before a final line break, or has one of the stream words in it.  So
    an excluded substring rejects a URL whatever else the URL has, and two
    URLs that differ in letter case only get the same verdict. *)
Theorem is_valid_stream_url_accepts (url : string) :
  (is_valid_stream_url url = true <->
   url <> EmptyString /\
   (forall pattern, In pattern exclude_patterns ->
      ~ exists pre post, PyStr.lower url = pre +:+ pattern +:+ post) /\
   ((exists extension pre,
        In extension [".m3u"; ".m3u8"; ".ts"; ".mp4"] /\
        (PyStr.lower url = pre +:+ extension \/
         PyStr.lower url = pre +:+ extension +:+ String Re.newline EmptyString)) \/
    (exists word pre post,
        In word ["playlist"; "stream"; "live"; "rtmp://"; "rtsp://"] /\
        PyStr.lower url = pre +:+ word +:+ post))) /\
  (forall url', PyStr.lower url' = PyStr.lower url ->
                is_valid_stream_url url' = is_valid_stream_url url).
Proof.
  split.
  - unfold is_valid_stream_url.
    destruct (PyStr.is_empty url) eqn:Hempty.
    { apply is_empty_true in Hempty. split; [done | by intros [? _]]. }
    assert (url <> EmptyString) as Hne by (by intros ->).
    destruct (existsb _ exclude_patterns) eqn:Hex.
    { split; [done|]. intros (_ & Hnone & _).
      apply existsb_exists in Hex as (pattern & Hin & Hc).
      apply contains_app in Hc. by destruct (Hnone pattern Hin). }
    assert (forall pattern, In pattern exclude_patterns ->
              ~ exists pre post, PyStr.lower url = pre +:+ pattern +:+ post) as Hnone.
    { intros pattern Hin Hc%contains_app.
      assert (existsb (fun p => PyStr.contains p (PyStr.lower url))
                      exclude_patterns = true) as Habs; [|congruence].
      apply existsb_exists. by exists pattern. }
    rewrite existsb_exists. split.
    + intros (pattern & Hin & Hs). split; [done|]. split; [done|].
      destruct pattern as [alternatives | literal]; simpl in Hs.
      * left. apply existsb_exists in Hs as (extension & Hext & Hend).
        apply at_end_app in Hend as [pre Hpre]. exists extension, pre.
        split; [|done].
        simpl in Hin. simpl.
        repeat (destruct Hin as [Heq | Hin];
                [try discriminate Heq; injection Heq as <-; simpl in Hext; tauto|]).
        done.
      * right. apply contains_app in Hs as (pre & post & Hs).
        exists literal, pre, post. split; [|done].
        simpl in Hin. simpl.
        repeat (destruct Hin as [Heq | Hin];
                [try discriminate Heq; injection Heq as <-; tauto|]).
        done.
    + intros (_ & _ & [(extension & pre & Hin & Hend) | (word & pre & post & Hin & Hs)]).
      * assert (at_end (PyStr.lower url) extension = true) as Hat.
        { apply at_end_app. by exists pre. }
        simpl in Hin. destruct Hin as [<- | [<- | [<- | [<- | []]]]].
        -- exists (AtEnd [".m3u"; ".m3u8"]). split; [simpl; tauto|].
           simpl. by rewrite Hat.
        -- exists (AtEnd [".m3u"; ".m3u8"]). split; [simpl; tauto|].
           simpl. rewrite Hat. by rewrite orb_true_r.
        -- exists (AtEnd [".ts"]). split; [simpl; tauto|]. simpl. by rewrite Hat.
        -- exists (AtEnd [".mp4"]). split; [simpl; tauto|]. simpl. by rewrite Hat.
      * exists (Anywhere word). split.
        -- simpl in Hin. simpl.
           destruct Hin as [<- | [<- | [<- | [<- | [<- | []]]]]]; tauto.
        -- simpl. apply contains_app. by exists pre, post.
  - intros url' Hlower. unfold is_valid_stream_url.
    rewrite <- (lower_empty url'), <- (lower_empty url), Hlower. done.
Qed.

(** ** [extract_stream_urls_from_html] *)

Lemma fold_left_elem {A : Type} (f : gset string -> A -> gset string)
      (Q : A -> string -> Prop) :
  (forall S a u, u ∈ f S a <-> u ∈ S \/ Q a u) ->
  forall l S u, u ∈ fold_left f l S <-> u ∈ S \/ exists a, a ∈ l /\ Q a u.
Proof.
  intros Hf. induction l as [|a l IH]; intros S u; simpl.
  - split; [by left | intros [H | (a & Ha & _)]; [done | by apply elem_of_nil in Ha]].
  - rewrite IH, Hf. split.
    + intros [[H | H] | (b & Hb & HQ)]; [by left | right | right].
      * exists a. split; [apply elem_of_cons; by left | done].
      * exists b. split; [apply elem_of_cons; by right | done].
    + intros [H | (b & Hb & HQ)]; [by left; left|].
      apply elem_of_cons in Hb as [-> | Hb]; [by left; right|].
      right. by exists b.
Qed.

Section Extract.

Variable soup_select : string -> string -> list Element.
Variable urlparse : string -> string * string.
Variable json_loads : string -> option JsonData.

Lemma element_url_is (element : Element) (href : string) :
  element_url element = Some href /\ href <> EmptyString <->
  href <> EmptyString /\
  (el_href element = Some href \/
   ((el_href element = None \/ el_href element = Some EmptyString) /\
    el_src element = Some href)).
Proof.
  unfold element_url. destruct (el_href element) as [[|a h]|]; simpl.
  - split.
    + intros [H Hne]. split; [done|]. right. split; [by right | done].
    + intros [Hne [[= <-] | [_ H]]]; done.
  - split.
    + intros [[= <-] Hne]. split; [done | by left].
    + intros [Hne [[= <-] | [[H | H] _]]]; done.
  - split.
    + intros [H Hne]. split; [done|]. right. split; [by left | done].
    + intros [Hne [H | [_ H]]]; done.
Qed.

Lemma absolute_href_is (base_url href u : string) :
  u = absolute_href urlparse base_url href <->
  (PyStr.startswith_any href ["http://"; "https://"] = true /\ u = href) \/
  (PyStr.startswith_any href ["http://"; "https://"] = false /\
   PyStr.startswith href "/" = true /\
   u = fst (urlparse base_url) +:+ "://" +:+ snd (urlparse base_url) +:+ href) \/
  (PyStr.startswith_any href ["http://"; "https://"] = false /\
   PyStr.startswith href "/" = false /\
   u = fst (urlparse base_url) +:+ "://" +:+ snd (urlparse base_url)
       +:+ "/" +:+ href).
Proof.
  unfold absolute_href. destruct (urlparse base_url) as [scheme netloc].
  cbn [fst snd].
  destruct (PyStr.startswith_any href ["http://"; "https://"]);
    [|destruct (PyStr.startswith href "/")]; split; intros H;
    intuition congruence.
Qed.

Lemma add_element_elem (base_url : string) (S : gset string) (element : Element)
      (u : string) :
  u ∈ add_element urlparse base_url S element <->
  u ∈ S \/ found_in_element urlparse base_url element u.
Proof.
  assert (found_in_element urlparse base_url element u <->
          exists href,
            element_url element = Some href /\ href <> EmptyString /\
            u = absolute_href urlparse base_url href /\
            is_valid_stream_url u = true) as ->.
  { unfold found_in_element. split; intros (href & H).
    - exists href. destruct H as (Hne & Hel & Habs & Hv).
      apply absolute_href_is in Habs.
      destruct (proj2 (element_url_is element href) (conj Hne Hel)) as [He _].
      done.
    - exists href. destruct H as (He & Hne & Habs & Hv).
      apply absolute_href_is in Habs.
      destruct (proj1 (element_url_is element href) (conj He Hne)) as [_ Hel].
      done. }
  unfold add_element.
  destruct (element_url element) as [href|].
  2: { split; [by left | intros [H | (href & H & _)]; done]. }
  destruct (PyStr.is_empty href) eqn:Hempty.
  { apply is_empty_true in Hempty as ->.
    split; [by left | intros [H | (href & [= <-] & H & _)]; done]. }
  assert (href <> EmptyString) as Hne by (by intros ->).
  destruct (is_valid_stream_url (absolute_href urlparse base_url href)) eqn:Hvalid.
  - rewrite elem_of_union, elem_of_singleton. split.
    + intros [-> | H]; [right | by left]. by exists href.
    + intros [H | (href' & [= <-] & _ & -> & _)]; [by right | by left].
  - split; [by left|]. intros [H | (href' & [= <-] & _ & -> & Hv)]; [done|].
    congruence.
Qed.

Lemma add_json_item_elem (S : gset string) (item : JsonItem) (u : string) :
  u ∈ add_json_item S item <-> u ∈ S \/ found_in_item item u.
Proof.
  unfold add_json_item, found_in_item. destruct item as [fields|].
  2: { split; [by left | intros [H | (fields & H & _)]; done]. }
  destruct (dict_get "url" fields) as [url|] eqn:Hurl.
  2: { split; [by left | intros [H | (fields' & [= <-] & H & _)]; [done|]].
       congruence. }
  destruct (is_valid_stream_url url) eqn:Hvalid.
  - rewrite elem_of_union, elem_of_singleton. split.
    + intros [-> | H]; [right | by left]. by exists fields.
    + intros [H | (fields' & [= <-] & Hu & _)]; [by right | left]. congruence.
  - split; [by left|]. intros [H | (fields' & [= <-] & Hu & Hv)]; [done|].
    congruence.
Qed.

(** X14. [extract_stream_urls_from_html] returns every URL once, and
    returns only URLs that [is_valid_stream_url] accepts: the URLs that the
    elements of the six selectors stand for, made absolute, and the [url]
    values of the dicts of the page read as a JSON list.  An empty page
    gives no URL.  So a relative [href] without a leading slash is found
    as the scheme of the page, [://], its host, a slash and the [href],
    when that is a valid URL; and the [href] of an element counts before
    its [src]. *)
Theorem extracted_urls_are_valid_and_distinct (html_content base_url : string) :
  let urls := extract_stream_urls_from_html soup_select urlparse json_loads
                                             html_content base_url in
  NoDup urls /\
  (forall u, u ∈ urls -> is_valid_stream_url u = true) /\
  (html_content = EmptyString -> urls = []) /\
  (forall u,
      u ∈ urls <->
      html_content <> EmptyString /\
      ((exists selector element,
           selector ∈ selectors /\
           element ∈ soup_select html_content selector /\
           found_in_element urlparse base_url element u) \/
       (exists items item,
           json_loads html_content = Some (JList items) /\
           item ∈ items /\ found_in_item item u))) /\
  (forall selector element href,
      html_content <> EmptyString ->
      selector ∈ selectors ->
      element ∈ soup_select html_content selector ->
      el_href element = Some href -> href <> EmptyString ->
      PyStr.startswith_any href ["http://"; "https://"] = false ->
      PyStr.startswith href "/" = false ->
      let u := fst (urlparse base_url) +:+ "://" +:+ snd (urlparse base_url)
               +:+ "/" +:+ href in
      is_valid_stream_url u = true -> u ∈ urls).
Proof.
  intros urls.
  assert (forall u,
      u ∈ urls <->
      html_content <> EmptyString /\
      ((exists selector element,
           selector ∈ selectors /\
           element ∈ soup_select html_content selector /\
           found_in_element urlparse base_url element u) \/
       (exists items item,
           json_loads html_content = Some (JList items) /\
           item ∈ items /\ found_in_item item u))) as Hiff.
  { intros u. unfold urls, extract_stream_urls_from_html.
    destruct (PyStr.is_empty html_content) eqn:Hempty.
    { apply is_empty_true in Hempty.
      split; [by intros ?%elem_of_nil | by intros [? _]]. }
    assert (html_content <> EmptyString) as Hne by (by intros ->).
    rewrite elem_of_elements. unfold stream_urls_of.
    assert (forall S,
              u ∈ fold_left (add_selector soup_select urlparse html_content base_url)
                            selectors S <->
              u ∈ S \/
              exists selector, selector ∈ selectors /\
                exists element, element ∈ soup_select html_content selector /\
                                found_in_element urlparse base_url element u) as Hsel.
    { intros S. apply (fold_left_elem _
        (fun selector u => exists element,
             element ∈ soup_select html_content selector /\
             found_in_element urlparse base_url element u)).
      intros S' selector u'. unfold add_selector.
      apply (fold_left_elem _ (found_in_element urlparse base_url)).
      intros S'' element u''. apply add_element_elem. }
    destruct (json_loads html_content) as [[items|]|] eqn:Hjson.
    - rewrite (fold_left_elem _ found_in_item add_json_item_elem), Hsel.
      rewrite elem_of_empty. split.
      + intros [[[] | (selector & Hs & element & He & Hf)] | (item & Hi & Hf)].
        * split; [done|]. left. by exists selector, element.
        * split; [done|]. right. by exists items, item.
      + intros [_ [(selector & element & Hs & He & Hf)
                  | (items' & item & [= <-] & Hi & Hf)]].
        * left. right. exists selector. split; [done|]. by exists element.
        * right. by exists item.
    - rewrite Hsel, elem_of_empty. split.
      + intros [[] | (selector & Hs & element & He & Hf)].
        split; [done|]. left. by exists selector, element.
      + intros [_ [(selector & element & Hs & He & Hf) | (items' & item & H & _)]];
          [|done].
        right. exists selector. split; [done|]. by exists element.
    - rewrite Hsel, elem_of_empty. split.
      + intros [[] | (selector & Hs & element & He & Hf)].
        split; [done|]. left. by exists selector, element.
      + intros [_ [(selector & element & Hs & He & Hf) | (items' & item & H & _)]];
          [|done].
        right. exists selector. split; [done|]. by exists element. }
  split; [|split; [|split; [|split; [done|]]]].
  - unfold urls, extract_stream_urls_from_html.
    destruct (PyStr.is_empty html_content); [apply NoDup_nil_2 | apply NoDup_elements].
  - intros u [_ [(selector & element & _ & _ & href & _ & _ & _ & Hv)
                | (items & item & _ & _ & fields & _ & _ & Hv)]]%Hiff; done.
  - intros ->. reflexivity.
  - intros selector element href Hne Hsel Hel Hhref Hnonempty Hscheme Hslash u Hv.
    apply Hiff. split; [done|]. left. exists selector, element.
    split; [done|]. split; [done|]. exists href.
    split; [done|]. split; [by left|]. split; [|done].
    right. right. done.
Qed.

End Extract.

(** The page of two anchors: the relative [href] is found behind the scheme
    and the host of the page, and the [href] of the excluded host is
    rejected. *)
Lemma scraper_resolves_relative_href :
  extract_stream_urls_from_html sample_soup sample_urlparse sample_json_loads
                                "<a href=video.m3u8></a><a href=https://facebook.com/x.m3u8></a>"
                                "https://example.com/page.html"
  = ["https://example.com/video.m3u8"].
Proof. by vm_compute. Qed.

(** ** The exporters *)

Lemma insert_sorted_perm (kv : string * list Channel) (l : Store) :
  insert_sorted kv l ≡ₚ kv :: l.
Proof.
  induction l as [|x l IH]; [done|]. cbn [insert_sorted].
  destruct (String.leb (fst kv) (fst x)); [done|].
  rewrite IH. apply perm_swap.
Qed.

Lemma sorted_items_perm (store : Store) : sorted_items store ≡ₚ store.
Proof.
  induction store as [|kv store IH]; [done|].
  cbn [sorted_items fold_right]. rewrite insert_sorted_perm.
  by apply perm_skip.
Qed.

Lemma insert_sorted_ascending (kv : string * list Channel) (l : Store) :
  ascending l -> ascending (insert_sorted kv l).
Proof.
  unfold ascending. induction 1 as [|x l Hl IH Hhd].
  - repeat constructor.
  - cbn [insert_sorted]. destruct (String.leb (fst kv) (fst x)) eqn:Hle.
    + constructor; [by constructor | by constructor].
    + constructor; [done|].
      assert (String.leb (fst x) (fst kv) = true) as Hge.
      { destruct (String.leb_total (fst kv) (fst x)); congruence. }
      destruct Hhd as [|y l' Hxy]; cbn [insert_sorted].
      * by constructor.
      * destruct (String.leb (fst kv) (fst y)); by constructor.
Qed.

Lemma sorted_items_ascending (store : Store) : ascending (sorted_items store).
Proof.
  induction store as [|kv store IH]; [constructor|].
  by apply insert_sorted_ascending.
Qed.

Lemma ascending_fmap {A B : Type} (f : A -> B) (l : list (string * A)) :
  ascending l -> ascending (List.map (fun kv => (fst kv, f (snd kv))) l).
Proof.
  unfold ascending. induction 1 as [|x l Hl IH Hhd]; [constructor|].
  simpl. constructor; [done|]. destruct Hhd; simpl; by constructor.
Qed.

Lemma elem_of_all_channels (store : Store) (g : string) (ch : Channel) :
  (g, ch) ∈ all_channels store <->
  exists chans, (g, chans) ∈ store /\ ch ∈ chans.
Proof.
  unfold all_channels. induction store as [|[k chans] rest IH]; simpl.
  - split; [by intros ?%elem_of_nil | by intros (? & ?%elem_of_nil & _)].
  - rewrite elem_of_app, IH, list_elem_of_fmap. split.
    + intros [([? ?] & [= <- <-] & Hin) | (chans' & Hin & Hch)].
      * exists chans. split; [apply elem_of_cons; by left | done].
      * exists chans'. split; [apply elem_of_cons; by right | done].
    + intros (chans' & [[= <- <-] | Hin]%elem_of_cons & Hch).
      * left. by exists ch.
      * right. by exists chans'.
Qed.

Section Report.

Variable now : nat -> string.
Variables session_head session_get : string -> Response.
Variable as_completed : list (string * Channel) -> list (string * Channel).
Variable fetch_content : string -> option string * list string.
Variable json_loads : string -> option JsonData.
Variable extract_stream_urls_from_html : string -> string -> list string.

Hypothesis as_completed_permutes : forall l, as_completed l ≡ₚ l.

#[local] Abbreviation run :=
  (process_sources now session_head session_get as_completed fetch_content
                   json_loads extract_stream_urls_from_html).
#[local] Abbreviation ingested :=
  (ingest now fetch_content json_loads extract_stream_urls_from_html).

Lemma run_check_links (source_urls : list string) (c : Collector) :
  check_links (run source_urls c) = check_links c.
Proof.
  destruct (ingest_settings now fetch_content json_loads
              extract_stream_urls_from_html source_urls c) as [_ Hcheck].
  unfold process_sources. cbv zeta.
  destruct (channels (ingested source_urls c)) eqn:Hstore; [done|].
  unfold filter_active_channels.
  destruct (check_links (ingested source_urls c)) eqn:Hingested; simpl;
    [|congruence].
  destruct (fold_left _ _ _). simpl. congruence.
Qed.

Lemma run_all_active (source_urls : list string) (c : Collector) :
  check_links c = true ->
  forall gc, gc ∈ all_channels (channels (run source_urls c)) ->
             c_status (snd gc) = Some "active".
Proof.
  intros Hcheck [g ch].
  rewrite (proj1 (process_sources_validates session_head session_get as_completed
                    as_completed_permutes now fetch_content json_loads
                    extract_stream_urls_from_html source_urls c) Hcheck).
  by intros (ch0 & u & _ & _ & ->)%elem_of_kept.
Qed.

Lemma run_unvalidated (source_urls : list string) (c : Collector) :
  check_links c = false -> unvalidated (run source_urls c).
Proof.
  intros Hcheck.
  rewrite (proj2 (process_sources_validates session_head session_get as_completed
                    as_completed_permutes now fetch_content json_loads
                    extract_stream_urls_from_html source_urls c) Hcheck).
  apply ingest_unvalidated.
Qed.

Lemma filter_all {A : Type} (f : A -> bool) (l : list A) :
  (forall x, x ∈ l -> f x = true) -> List.filter f l = l.
Proof.
  induction l as [|x l IH]; intros H; [done|]. simpl.
  rewrite (H x) by (apply elem_of_cons; by left).
  rewrite IH; [done|]. intros y Hy. apply H, elem_of_cons. by right.
Qed.

(** X15. In the statistics of a run the total is the sum of the counts of
    the breakdown, each group appears once and with at least one channel,
    and the number of groups is the length of the breakdown.  After a run
    with validation the number of active channels is the total; after a
    run without validation it is replaced by [not_checked]. *)
Theorem statistics_of_a_run
        (now' : nat -> string) (source_urls : list string) (c : Collector) :
  let stats := export_stats now' (run source_urls c) in
  s_total_channels stats = list_sum (List.map snd (s_groups_breakdown stats)) /\
  s_total_groups stats = List.length (s_groups_breakdown stats) /\
  NoDup (List.map fst (s_groups_breakdown stats)) /\
  Forall (fun kv => 1 <= snd kv) (s_groups_breakdown stats) /\
  (check_links c = true -> s_active_channels stats = Some (s_total_channels stats)) /\
  (check_links c = false -> s_active_channels stats = None).
Proof.
  intros stats. unfold stats, export_stats. simpl.
  destruct (process_sources_store_wf now session_head session_get as_completed
              fetch_content json_loads extract_stream_urls_from_html
              source_urls c as_completed_permutes) as [Hnd Hall].
  rewrite run_check_links.
  split; [|split; [|split; [|split; [|split]]]].
  - unfold total_channels. by rewrite map_map.
  - by rewrite length_map.
  - by rewrite map_map.
  - apply Forall_fmap. apply (Forall_impl _ _ _ Hall). intros [k chans] [Hne _].
    simpl in *. destruct chans; [done | simpl; lia].
  - intros Hcheck. rewrite Hcheck. f_equal.
    rewrite filter_all, total_channels_length; [done|].
    intros gc Hgc. unfold is_active.
    by rewrite (run_all_active source_urls c Hcheck gc Hgc).
  - by intros ->.
Qed.

(** X16. The structured export of a run lists the groups in ascending order
    of their labels, each group once, and its counts are those of what it
    lists.  Every channel object has the status [active] after a run with
    validation and the status [unknown] after a run without. *)
Theorem structured_export_of_a_run
        (now' now_readable : nat -> string) (source_urls : list string)
        (c : Collector) :
  let data := export_anixlinks_json now' now_readable (run source_urls c) in
  ascending (x_channels data) /\
  NoDup (List.map fst (x_channels data)) /\
  m_groups (x_meta data) ≡ₚ List.map fst (x_channels data) /\
  m_total_groups (x_meta data) = List.length (x_channels data) /\
  m_total_channels (x_meta data) =
    list_sum (List.map (fun kv => List.length (snd kv)) (x_channels data)) /\
  (forall g objects object,
      (g, objects) ∈ x_channels data -> object ∈ objects ->
      x_status object = if check_links c then "active" else "unknown").
Proof.
  intros data. unfold data, export_anixlinks_json. simpl.
  set (store := channels (run source_urls c)).
  destruct (process_sources_store_wf now session_head session_get as_completed
              fetch_content json_loads extract_stream_urls_from_html
              source_urls c as_completed_permutes) as [Hnd _].
  fold store in Hnd.
  pose proof (sorted_items_perm store) as Hperm.
  split; [|split; [|split; [|split; [|split]]]].
  - apply (ascending_fmap (List.map exported_channel)), sorted_items_ascending.
  - rewrite map_map. simpl. by rewrite Hperm.
  - rewrite map_map. simpl. by rewrite Hperm.
  - by rewrite length_map, Hperm.
  - rewrite map_map. simpl. unfold total_channels.
    transitivity (list_sum (List.map (fun kv => List.length (snd kv))
                                     (sorted_items store))).
    + clear Hnd. induction Hperm; simpl; try lia.
    + f_equal. apply map_ext. intros kv. by rewrite length_map.
  - intros g objects object Hin Hobject.
    apply list_elem_of_fmap in Hin as ([k chans] & [= -> ->] & Hin).
    rewrite Hperm in Hin. simpl in Hobject.
    apply list_elem_of_fmap in Hobject as (ch & -> & Hch).
    assert ((k, ch) ∈ all_channels store) as Hgc.
    { apply elem_of_all_channels. by exists chans. }
    unfold exported_channel. simpl.
    destruct (check_links c) eqn:Hcheck.
    + pose proof (run_all_active source_urls c Hcheck (k, ch) Hgc) as Hs.
      simpl in Hs. by rewrite Hs.
    + pose proof (run_unvalidated source_urls c Hcheck (k, ch) Hgc) as Hs.
      simpl in Hs. by rewrite Hs.
Qed.

End Report.

(** ** Reading an exported playlist back *)

Lemma mem_char_app (c : ascii) (a b : string) :
  mem_char c (a +:+ b) = mem_char c a || mem_char c b.
Proof.
  induction a as [|x a IH]; simpl; [done|]. by rewrite IH, orb_assoc.
Qed.

Lemma first_quote (a b x y : string) :
  mem_char Re.quote a = false -> mem_char Re.quote b = false ->
  a +:+ String Re.quote x = b +:+ String Re.quote y -> a = b.
Proof.
  revert b; induction a as [|c a IH]; intros [|d b]; simpl; intros Ha Hb H.
  - done.
  - injection H as <- _. by rewrite Ascii.eqb_refl in Hb.
  - injection H as -> _. by rewrite Ascii.eqb_refl in Ha.
  - injection H as -> H.
    apply orb_false_iff in Ha as [_ Ha]. apply orb_false_iff in Hb as [_ Hb].
    f_equal. by apply IH.
Qed.

Lemma drop_app (a r : string) : PyStr.drop (String.length a) (a +:+ r) = r.
Proof. induction a as [|c a IH]; simpl; [by destruct r | done]. Qed.

Lemma match_quoted_app (g rest : string) :
  mem_char Re.quote g = false ->
  Re.match_quoted (g +:+ String Re.quote rest) = Some g.
Proof.
  induction g as [|c g IH]; simpl; [done|].
  intros [Hc Hg]%orb_false_iff. by rewrite Hc, IH.
Qed.

(** The opening of an attribute pattern matches before a double quote
    exactly when the text before that double quote is the key and the
    equals sign. *)
Lemma opening_prefix (key u rest : string) :
  mem_char Re.quote key = false -> mem_char Re.quote u = false ->
  String.prefix (key +:+ "=" +:+ String Re.quote EmptyString)
                (u +:+ String Re.quote rest)
  = String.eqb u (key +:+ "=").
Proof.
  intros Hkey Hu. apply eq_true_iff_eq. rewrite prefix_app, String.eqb_eq.
  assert (forall r, (key +:+ "=" +:+ String Re.quote EmptyString) +:+ r
                    = (key +:+ "=") +:+ String Re.quote r) as Hshape.
  { intros r. by rewrite !append_assoc. }
  split.
  - intros [r Hr]. rewrite Hshape in Hr. apply first_quote in Hr; [done..|].
    by rewrite mem_char_app, Hkey.
  - intros ->. exists rest. by rewrite Hshape.
Qed.

Lemma search_attr_unfold (key s : string) :
  Re.search_attr key s =
  let opening := key +:+ "=" +:+ String Re.quote EmptyString in
  match (if String.prefix opening s
         then Re.match_quoted (PyStr.drop (String.length opening) s)
         else None) with
  | Some g => Some g
  | None =>
      match s with
      | EmptyString => None
      | String _ s' => Re.search_attr key s'
      end
  end.
Proof. by destruct s. Qed.

Lemma key_equals_nonempty (key : string) :
  String.eqb EmptyString (key +:+ "=") = false.
Proof. by destruct key. Qed.

(** A text without double quotes that does not end with the key and the
    equals sign holds no match of the attribute pattern, and none starts
    in it. *)
Lemma search_attr_segment (key u rest : string) :
  mem_char Re.quote key = false -> mem_char Re.quote u = false ->
  PyStr.endswith u (key +:+ "=") = false ->
  Re.search_attr key (u +:+ String Re.quote rest) = Re.search_attr key rest.
Proof.
  intros Hkey. unfold PyStr.endswith.
  induction u as [|c u IH]; intros Hu Hend.
  - rewrite search_attr_unfold. cbv zeta.
    rewrite (opening_prefix key EmptyString rest Hkey Hu).
    by rewrite key_equals_nonempty.
  - rewrite search_attr_unfold. cbv zeta.
    rewrite (opening_prefix key (String c u) rest Hkey Hu).
    cbn [PyStr.endswith_from] in Hend.
    apply orb_false_iff in Hend as [-> Hend].
    simpl in Hu. apply orb_false_iff in Hu as [_ Hu].
    simpl. by apply IH.
Qed.

(** The leftmost match of the attribute pattern is where a text without
    double quotes ends with the key and the equals sign, and its group is
    the text up to the next double quote. *)
Lemma search_attr_found (key u g rest : string) :
  mem_char Re.quote key = false -> mem_char Re.quote u = false ->
  mem_char Re.quote g = false ->
  PyStr.endswith u (key +:+ "=") = true ->
  Re.search_attr key (u +:+ String Re.quote (g +:+ String Re.quote rest)) = Some g.
Proof.
  intros Hkey Hu Hg. unfold PyStr.endswith.
  induction u as [|c u IH]; intros Hend.
  - cbn [PyStr.endswith_from] in Hend.
    by rewrite key_equals_nonempty in Hend.
  - rewrite search_attr_unfold. cbv zeta.
    rewrite (opening_prefix key (String c u) _ Hkey Hu).
    cbn [PyStr.endswith_from] in Hend.
    destruct (String.eqb (String c u) (key +:+ "=")) eqn:Heq.
    + apply String.eqb_eq in Heq. rewrite Heq.
      replace ((key +:+ "=") +:+ String Re.quote (g +:+ String Re.quote rest))
        with ((key +:+ "=" +:+ String Re.quote EmptyString)
                +:+ (g +:+ String Re.quote rest))
        by (by rewrite !append_assoc).
      by rewrite drop_app, match_quoted_app.
    + simpl in Hend. simpl in Hu. apply orb_false_iff in Hu as [_ Hu].
      simpl. by apply IH.
Qed.

Lemma append_cons_assoc (a : string) (q : ascii) (x y : string) :
  (a +:+ String q x) +:+ y = a +:+ String q (x +:+ y).
Proof. by rewrite append_assoc. Qed.

Lemma rstrip_app (pre s : string) :
  s <> EmptyString -> PyStr.rstrip s = s -> PyStr.rstrip (pre +:+ s) = pre +:+ s.
Proof.
  intros Hne Hs. induction pre as [|c pre IH]; [done|].
  cbn [String.append PyStr.rstrip]. rewrite IH.
  destruct (pre +:+ s) eqn:Hps.
  - destruct pre; [done | discriminate].
  - by rewrite andb_false_r.
Qed.

Lemma strip_fixed_rstrip (s : string) : PyStr.strip s = s -> PyStr.rstrip s = s.
Proof.
  intros Hs. rewrite <- Hs at 1. unfold PyStr.strip.
  by rewrite rstrip_idempotent.
Qed.

Lemma collapse_fixed_strip (s : string) : collapse s = s -> PyStr.strip s = s.
Proof.
  intros Hs. rewrite <- Hs at 1. rewrite <- strip_sub_ws_strip.
  by rewrite strip_idempotent, strip_sub_ws_strip.
Qed.

Section Exported.

Variable group : string.
Variable channel : Channel.

Hypothesis Hexportable : exportable (group, channel) = true.

#[local] Abbreviation written := (extinf_line group channel).

Lemma exportable_fields :
  (mem_char Re.quote (c_tvg_id channel) = false /\
   mem_char Re.comma (c_tvg_id channel) = false) /\
  (mem_char Re.quote (c_logo channel) = false /\
   mem_char Re.comma (c_logo channel) = false) /\
  (mem_char Re.quote group = false /\ mem_char Re.comma group = false) /\
  PyStr.endswith (c_tvg_id channel) "tvg-logo=" = false /\
  PyStr.endswith (c_tvg_id channel) "group-title=" = false /\
  PyStr.endswith (c_logo channel) "group-title=" = false /\
  c_logo channel <> EmptyString /\
  c_name channel <> EmptyString /\
  mem_char Re.newline (c_name channel) = false /\
  collapse (c_name channel) = c_name channel /\
  PyStr.startswith_any (c_url channel) url_schemes = true /\
  PyStr.strip (c_url channel) = c_url channel.
Proof.
  pose proof Hexportable as H. unfold exportable, attribute_value in H.
  repeat match goal with
         | H : _ && _ = true |- _ => apply andb_true_iff in H as [? ?]
         | H : negb _ = true |- _ => apply negb_true_iff in H
         | H : String.eqb _ _ = true |- _ => apply String.eqb_eq in H
         end.
  repeat split; try done.
  - by destruct (c_logo channel).
  - by destruct (c_name channel).
Qed.

Lemma written_tvg_id : extinf_tvg_id written = c_tvg_id channel.
Proof.
  destruct exportable_fields as ([Hq _] & _).
  unfold extinf_tvg_id, extinf_line.
  by rewrite (search_attr_found "tvg-id" "#EXTINF:-1 tvg-id=").
Qed.

Lemma written_logo : extinf_logo written = c_logo channel.
Proof.
  destruct exportable_fields as ([Hq _] & [Hl _] & _ & Hend & _ & _ & Hne & _).
  unfold extinf_logo, extinf_line.
  rewrite (search_attr_segment "tvg-logo" "#EXTINF:-1 tvg-id=") by done.
  rewrite (search_attr_segment "tvg-logo" (c_tvg_id channel)) by done.
  rewrite (search_attr_found "tvg-logo" " tvg-logo=") by done.
  by destruct (c_logo channel).
Qed.

Lemma written_group : extinf_group written = group.
Proof.
  destruct exportable_fields
    as ([Hq _] & [Hl _] & [Hg _] & _ & Hend & Hend' & _).
  unfold extinf_group, extinf_line.
  rewrite (search_attr_segment "group-title" "#EXTINF:-1 tvg-id=") by done.
  rewrite (search_attr_segment "group-title" (c_tvg_id channel)) by done.
  rewrite (search_attr_segment "group-title" " tvg-logo=") by done.
  rewrite (search_attr_segment "group-title" (c_logo channel)) by done.
  by rewrite (search_attr_found "group-title" " group-title=").
Qed.

Lemma written_shape :
  written =
  ("#EXTINF:-1 tvg-id=" +:+ String Re.quote (c_tvg_id channel +:+
   String Re.quote (" tvg-logo=" +:+ String Re.quote (c_logo channel +:+
   String Re.quote (" group-title=" +:+ String Re.quote (group +:+
   String Re.quote EmptyString))))))
  +:+ "," +:+ c_name channel.
Proof.
  unfold extinf_line. by rewrite !append_cons_assoc.
Qed.

Lemma written_name : extinf_name written = c_name channel.
Proof.
  destruct exportable_fields
    as ([_ Hq] & [_ Hl] & [_ Hg] & _ & _ & _ & _ & Hne & Hnl & Hcollapse & _).
  transitivity (collapse (c_name channel)); [|done].
  apply (extinf_name_first_comma _ _ _ written_shape); [|done..].
  cbn [String.append mem_char]. rewrite !mem_char_app. cbn [mem_char].
  rewrite !mem_char_app. cbn [mem_char]. rewrite !mem_char_app.
  cbn [mem_char]. by rewrite Hq, Hl, Hg.
Qed.

Lemma written_strip : PyStr.strip written = written.
Proof.
  destruct exportable_fields as (_ & _ & _ & _ & _ & _ & _ & Hne & _ & Hc & _).
  unfold PyStr.strip.
  replace (PyStr.lstrip written) with written by reflexivity.
  rewrite written_shape. apply rstrip_app; [done|].
  apply (rstrip_app ","); [done|].
  by apply strip_fixed_rstrip, collapse_fixed_strip.
Qed.

(** The two lines of a record give back its playlist entry when its URL
    has not been seen. *)
Lemma loop_entry (now : nat -> string) (source_url : string) (st : M3uLoop) :
  c_url channel ∉ seen_urls (self st) ->
  exists channel',
    m3u_loop now source_url [written; c_url channel] st =
    mkM3uLoop None (S (channel_count st))
              (admit_channel channel' (tick (self st))) /\
    c_group channel' = group /\ c_url channel' = c_url channel /\
    playlist_entry (group, channel') = playlist_entry (group, channel).
Proof.
  intros Hfresh.
  destruct exportable_fields
    as (_ & _ & _ & _ & _ & _ & _ & _ & _ & _ & Hscheme & Hstrip).
  exists (with_url (extinf_channel written source_url (now (clock (self st))))
                   (c_url channel)).
  split; [|split; [|split]].
  - unfold m3u_loop. cbn [fold_left].
    rewrite (step_extinf now source_url st written)
      by (by rewrite written_strip).
    rewrite written_strip.
    erewrite (step_url_fresh now source_url); rewrite ?Hstrip; done.
  - apply written_group.
  - done.
  - unfold playlist_entry. simpl.
    by rewrite written_tvg_id, written_logo, written_name.
Qed.

End Exported.

Lemma loop_entries (now : nat -> string) (source_url : string)
      (entries : list (string * Channel)) :
  forall st,
    (forall gc, gc ∈ entries -> exportable gc = true) ->
    NoDup (List.map (fun gc => c_url (snd gc)) entries) ->
    (forall gc, gc ∈ entries -> c_url (snd gc) ∉ seen_urls (self st)) ->
    let st' :=
      m3u_loop now source_url
               (flat_map (fun gc => [extinf_line (fst gc) (snd gc); c_url (snd gc)])
                         entries) st in
    List.map playlist_entry (all_channels (channels (self st'))) ≡ₚ
      List.map playlist_entry (all_channels (channels (self st)))
      ++ List.map playlist_entry entries /\
    channel_count st' = channel_count st + List.length entries.
Proof.
  induction entries as [|[g ch] entries IH]; intros st Hexp Hnd Hfresh.
  - simpl. rewrite app_nil_r. split; [done | lia].
  - cbn [flat_map fst snd]. cbv zeta. rewrite (loop_app now source_url).
    assert (exportable (g, ch) = true) as Hgc
        by (apply Hexp, elem_of_cons; by left).
    destruct (loop_entry g ch Hgc now source_url st) as (ch' & -> & Hg & Hu & He).
    { apply (Hfresh (g, ch)), elem_of_cons. by left. }
    cbn [List.map] in Hnd. apply NoDup_cons in Hnd as [Hnew Hnd].
    cbn [fst snd] in Hnew.
    set (st1 := mkM3uLoop None (S (channel_count st))
                          (admit_channel ch' (tick (self st)))).
    destruct (IH st1) as [Hperm Hcount].
    + intros gc Hin. apply Hexp, elem_of_cons. by right.
    + done.
    + intros gc Hin. simpl. rewrite Hu.
      intros [Heq%elem_of_singleton | Hseen]%elem_of_union.
      * apply Hnew. apply list_elem_of_fmap. by exists gc.
      * revert Hseen. apply Hfresh, elem_of_cons. by right.
    + split.
      * rewrite Hperm. simpl. rewrite Hg, all_channels_append_to.
        rewrite map_app. simpl. rewrite He, <- app_assoc. done.
      * rewrite Hcount. simpl. lia.
Qed.

(** The four lines that [export_m3u] writes first leave a pending record
    and nothing else. *)
Lemma loop_heading (now : nat -> string) (source_url : string) (c : Collector) :
  exists e,
    m3u_loop now source_url
             [ "#EXTM3U";
               "#EXTINF:-1,AniXLinks - Generated by " +:+ a_name author_info
                 +:+ " (@" +:+ a_instagram author_info +:+ ")";
               "#EXTVLCOPT:http-user-agent=AniXLinks/" +:+ a_version author_info;
               EmptyString ]
             (m3u_start c)
    = mkM3uLoop (Some e) 0 (tick c).
Proof.
  eexists. unfold m3u_loop. cbn [fold_left].
  rewrite (step_other now source_url _ "#EXTM3U") by reflexivity.
  rewrite (step_extinf now source_url (m3u_start c)) by reflexivity.
  rewrite !(step_other now source_url) by reflexivity.
  reflexivity.
Qed.

(** X17. The playlist that [export_m3u] writes is read back by
    [parse_m3u_content]: when every record of the store is exportable and
    the URLs of the store are distinct and new to the collector that
    reads, the parser emits one record for each record of the store, under
    the same group and with the same [tvg_id], logo, name and URL, and
    reports their number. *)
Theorem exported_playlist_is_read_back
        (now : nat -> string) (source_url : string) (store : Store)
        (c : Collector) :
  forallb exportable (all_channels store) = true ->
  NoDup (store_urls store) ->
  (forall u, u ∈ store_urls store -> u ∉ seen_urls c) ->
  let read := m3u_loop now source_url (export_m3u_lines store) (m3u_start c) in
  List.map playlist_entry
           (all_channels (channels (parse_m3u_content now (export_m3u_lines store)
                                                     source_url c))) ≡ₚ
    List.map playlist_entry (all_channels (channels c))
    ++ List.map playlist_entry (all_channels store) /\
  channel_count read = total_channels store.
Proof.
  intros Hexp Hnd Hfresh read. unfold parse_m3u_content. fold read.
  assert (all_channels (sorted_items store) ≡ₚ all_channels store) as Hsorted.
  { unfold all_channels. apply Permutation_flat_map, sorted_items_perm. }
  unfold read, export_m3u_lines. rewrite (loop_app now source_url).
  destruct (loop_heading now source_url c) as [e ->].
  destruct (loop_entries now source_url (all_channels (sorted_items store))
                         (mkM3uLoop (Some e) 0 (tick c))) as [Hperm Hcount].
  - intros gc Hin. rewrite Hsorted in Hin.
    rewrite forallb_forall in Hexp. by apply Hexp, list_elem_of_In.
  - fold (store_urls (sorted_items store)). unfold store_urls.
    by rewrite Hsorted.
  - intros gc Hin. simpl. apply Hfresh. rewrite Hsorted in Hin.
    apply list_elem_of_fmap. by exists gc.
  - split.
    + rewrite Hperm. simpl. by rewrite Hsorted.
    + rewrite Hcount. simpl. rewrite total_channels_length.
      by rewrite Hsorted.
Qed.

(** ** A run starts from scratch *)

(** X18. [process_sources] forgets what the collector held: the store, the
    seen URLs and the cache of an earlier run have no part in the result,
    which depends on the collector through its [check_links] setting and
    its clock only. *)
Theorem process_sources_starts_from_scratch
        (now : nat -> string) (session_head session_get : string -> Response)
        (as_completed : list (string * Channel) -> list (string * Channel))
        (fetch_content : string -> option string * list string)
        (json_loads : string -> option JsonData)
        (extract_stream_urls_from_html : string -> string -> list string)
        (source_urls : list string) (c c' : Collector) :
  check_links c = check_links c' -> clock c = clock c' ->
  process_sources now session_head session_get as_completed fetch_content
                  json_loads extract_stream_urls_from_html source_urls c =
  process_sources now session_head session_get as_completed fetch_content
                  json_loads extract_stream_urls_from_html source_urls c'.
Proof.
  intros Hcheck Hclock. unfold process_sources, ingest.
  replace (clear c') with (clear c); [done|].
  unfold clear. by rewrite Hcheck, Hclock.
Qed.

(** ** The properties at sample inputs *)

Lemma rev_permutes : forall l : list (string * Channel), rev l ≡ₚ l.
Proof. intros l. symmetry. apply Permutation_rev. Qed.

Lemma parsing_again_at_sample :
  let c' := parse_m3u_content sample_now sample_playlist sample_source
                              (new_collector true) in
  seen_urls (parse_m3u_content sample_now sample_playlist sample_source
                               (new_collector true)) ⊆ seen_urls c' /\
  channels (parse_m3u_content sample_now sample_playlist
                              "http://mirror.example/list.m3u" c') = channels c' /\
  seen_urls (parse_m3u_content sample_now sample_playlist
                               "http://mirror.example/list.m3u" c') = seen_urls c'.
Proof.
  intros c'. split; [done|].
  by apply (parsing_again_adds_nothing sample_now sample_playlist sample_source
              "http://mirror.example/list.m3u" (new_collector true) c').
Defined.

Lemma store_is_well_formed_at_sample :
  (forall l : list (string * Channel), rev l ≡ₚ l) /\
  store_wf (channels (process_sources sample_now sample_head sample_get (@rev _)
                                      sample_fetch sample_json_loads sample_extract
                                      [sample_source] (new_collector true))).
Proof.
  split; [exact rev_permutes|].
  exact (proj1 (store_is_well_formed sample_now sample_head sample_get (@rev _)
                  sample_fetch sample_json_loads sample_extract
                  [sample_source] (new_collector true) rev_permutes)).
Defined.


Lemma statistics_at_sample :
  (forall l : list (string * Channel), rev l ≡ₚ l) /\
  s_active_channels
    (export_stats sample_now
       (process_sources sample_now sample_head sample_get (@rev _) sample_fetch
                        sample_json_loads sample_extract [sample_source]
                        (new_collector true)))
  = Some (s_total_channels
    (export_stats sample_now
       (process_sources sample_now sample_head sample_get (@rev _) sample_fetch
                        sample_json_loads sample_extract [sample_source]
                        (new_collector true)))).
Proof.
  split; [exact rev_permutes|].
  refine (proj1 (proj2 (proj2 (proj2 (proj2
    (statistics_of_a_run sample_now sample_head sample_get (@rev _) sample_fetch
       sample_json_loads sample_extract rev_permutes sample_now [sample_source]
       (new_collector true)))))) _).
  reflexivity.
Defined.

Lemma structured_export_at_sample :
  (forall l : list (string * Channel), rev l ≡ₚ l) /\
  ascending
    (x_channels
       (export_anixlinks_json sample_now sample_now
          (process_sources sample_now sample_head sample_get (@rev _) sample_fetch
                           sample_json_loads sample_extract [sample_source]
                           (new_collector false)))).
Proof.
  split; [exact rev_permutes|].
  exact (proj1 (structured_export_of_a_run sample_now sample_head sample_get
                  (@rev _) sample_fetch sample_json_loads sample_extract
                  rev_permutes sample_now sample_now [sample_source]
                  (new_collector false))).
Defined.

Lemma exported_playlist_at_sample :
  let store := channels sample_collector in
  forallb exportable (all_channels store) = true /\
  NoDup (store_urls store) /\
  (forall u, u ∈ store_urls store -> u ∉ seen_urls (new_collector true)) /\
  List.map playlist_entry
           (all_channels (channels (parse_m3u_content sample_now
                                      (export_m3u_lines store) sample_source
                                      (new_collector true)))) ≡ₚ
    List.map playlist_entry (all_channels store).
Proof.
  intros store.
  assert (forallb exportable (all_channels store) = true) as Hexp
      by (vm_compute; reflexivity).
  assert (NoDup (store_urls store)) as Hnd.
  { apply (bool_decide_unpack _). vm_compute. exact I. }
  assert (forall u, u ∈ store_urls store -> u ∉ seen_urls (new_collector true))
    as Hfresh.
  { intros u _. apply not_elem_of_empty. }
  split; [exact Hexp|]. split; [exact Hnd|]. split; [exact Hfresh|].
  exact (proj1 (exported_playlist_is_read_back sample_now sample_source store
                  (new_collector true) Hexp Hnd Hfresh)).
Defined.

Lemma starting_from_scratch_at_sample :
  check_links sample_collector = check_links (mkCollector [] ∅ ∅ true 2) /\
  clock sample_collector = clock (mkCollector [] ∅ ∅ true 2) /\
  process_sources sample_now sample_head sample_get (@rev _) sample_fetch
                  sample_json_loads sample_extract [sample_source]
                  sample_collector =
  process_sources sample_now sample_head sample_get (@rev _) sample_fetch
                  sample_json_loads sample_extract [sample_source]
                  (mkCollector [] ∅ ∅ true 2).
Proof.
  split; [reflexivity|]. split; [reflexivity|].
  exact (process_sources_starts_from_scratch
           sample_now sample_head sample_get (@rev _) sample_fetch
           sample_json_loads sample_extract [sample_source] sample_collector
           (mkCollector [] ∅ ∅ true 2) eq_refl eq_refl).
Defined.
